(** * Donation backend: the Express routes, the admin gate and the Mongoose model

    A shallow embedding of the two server files of the repository,
    [server.js] and its API-only revision (the file whose root route answers
    with a JSON status instead of serving [public/index.html]).  The two files
    share the admin gate and the four API routes line for line; they differ in
    the root route and in one line of the schema.  The embedding keeps them
    apart with a [Variant].

    What is outside the two files is taken as follows.
    - [uuidv4()], [Date.now()] and the availability of the document store are
      inputs of each request, gathered in [Env].
    - [bodyParser.json()] leaves [req.body] an object ([{}] when nothing was
      parsed) or an array; header values are strings of code units below 256.
    - Mongoose casts [null]/[undefined] to themselves and a string to itself
      under [String]; what its casters do on other values is a parameter
      ([Casters]).
    - Route handlers run to completion one request at a time: the session set
      is only touched synchronously, the collection only through one store
      call per request.
    - The [app.use] middleware in front of the routes (CORS, the JSON body
      parser, static files) is not modelled: a request is taken as it reaches
      its route. *)

From Stdlib Require Import ZArith String Ascii List Bool Lia PrimFloat Permutation.
From stdpp Require Import gmap strings list sorting.

Local Open Scope string_scope.
Local Open Scope list_scope.
Local Set Warnings "-register-all,-clear-no-such-hyp".

(** ** JavaScript values and the string methods the gate uses *)
Module JS.

(** A value as [JSON.parse] produces it, plus [undefined] for a property
    that is not there. *)
Inductive Value : Type :=
| Undefined
| Null
| Bool (b : bool)
| Num (n : float)
| Str (s : string)
| Arr (items : list Value)
| Obj (fields : list (string * Value)).

(** [o[k]] on an object literal: the property, or [undefined]. *)
Fixpoint lookup_field (k : string) (fields : list (string * Value)) : Value :=
  match fields with
  | [] => Undefined
  | (k', v) :: rest => if String.eqb k k' then v else lookup_field k rest
  end.

(** [v === e] where [e] is a value of [process.env]: a string or
    [undefined].  Operands of different types are never strictly equal. *)
Definition strictEqualsEnv (v : Value) (e : option string) : bool :=
  match v, e with
  | Undefined, None => true
  | Str s, Some s' => String.eqb s s'
  | _, _ => false
  end.

(** [s.startsWith(searchString)]. *)
Definition startsWith (s searchString : string) : bool :=
  String.prefix searchString s.

Fixpoint skip (n : nat) (s : string) : string :=
  match n, s with
  | O, _ => s
  | S _, EmptyString => EmptyString
  | S n', String _ rest => skip n' rest
  end.

(** [s.replace(pattern, replacement)] with a string pattern: only the first
    occurrence is replaced.  The replacement of this program is the empty
    string, so it has no [$] patterns to expand. *)
Fixpoint replace (s pattern replacement : string) : string :=
  if String.prefix pattern s
  then replacement +:+ skip (String.length pattern) s
  else match s with
       | EmptyString => EmptyString
       | String c rest => String c (replace rest pattern replacement)
       end.

(** WhiteSpace and LineTerminator code units below 256:
    TAB, LF, VT, FF, CR, SP and NBSP. *)
Definition isWhiteSpace (c : ascii) : bool :=
  let n := nat_of_ascii c in
  (Nat.leb 9 n && Nat.leb n 13) || Nat.eqb n 32 || Nat.eqb n 160.

Fixpoint trimStart (s : string) : string :=
  match s with
  | EmptyString => EmptyString
  | String c rest => if isWhiteSpace c then trimStart rest else s
  end.

Fixpoint trimEnd (s : string) : string :=
  match s with
  | EmptyString => EmptyString
  | String c rest =>
      match trimEnd rest with
      | EmptyString => if isWhiteSpace c then EmptyString else String c EmptyString
      | kept => String c kept
      end
  end.

(** [s.trim()]. *)
Definition trim (s : string) : string := trimEnd (trimStart s).

(** [!s] for a string or [undefined]: falsy when absent or empty. *)
Definition falsy (s : option string) : bool :=
  match s with
  | None => true
  | Some s => String.eqb s ""
  end.

(** A [Set] of strings with [add], [has] and [delete]; nothing in the
    program iterates over it, so insertion order is not kept. *)
Definition Set_add (x : string) (s : gset string) : gset string := {[ x ]} ∪ s.
Definition Set_has (x : string) (s : gset string) : bool := bool_decide (x ∈ s).
(** [delete] returns whether the element was there; it never throws. *)
Definition Set_delete (x : string) (s : gset string) : bool * gset string :=
  (bool_decide (x ∈ s), s ∖ {[ x ]}).

End JS.

(** ** Mongoose: schema declarations, documents, validation, save and find *)
Module Mongoose.

(** What a schema declaration writes after [type:]: one of the constructors
    [String], [Number], [Date], or any other JavaScript value. *)
Inductive TypeKey : Type :=
| TypeString
| TypeNumber
| TypeDate
| TypeLiteral (v : JS.Value).

(** What a declaration writes after [default:]. *)
Inductive DefaultFn : Type := DateNow.

(** One entry of the object passed to [new mongoose.Schema]. *)
Record PathDef : Type := {
  type : TypeKey;
  required : bool;
  default : option DefaultFn
}.

Definition SchemaDef : Type := list (string * PathDef).

(** The schema types Mongoose has for the constructors above. *)
Inductive SchemaType : Type := SchemaString | SchemaNumber | SchemaDate.

Record SchemaPath : Type := {
  instance : SchemaType;
  isRequired : bool;
  defaultValue : option DefaultFn
}.

Definition Schema : Type := list (string * SchemaPath).

(** What the library throws or rejects with. *)
Inductive Thrown : Type :=
| TypeError (path : string)           (* invalid schema configuration *)
| ValidationError (paths : list string)
| MongoError.                         (* the store refused or was unreachable *)

Inductive Result (A : Type) : Type :=
| Ok (a : A)
| Throw (e : Thrown).
Arguments Ok {A} a.
Arguments Throw {A} e.

(** [Schema.prototype.interpretAsType]: a [type] that names no schema type is
    an invalid schema configuration. *)
Definition interpretAsType (path : string) (d : PathDef) : Result SchemaPath :=
  match type d with
  | TypeString => Ok {| instance := SchemaString; isRequired := required d; defaultValue := default d |}
  | TypeNumber => Ok {| instance := SchemaNumber; isRequired := required d; defaultValue := default d |}
  | TypeDate => Ok {| instance := SchemaDate; isRequired := required d; defaultValue := default d |}
  | TypeLiteral _ => Throw (TypeError path)
  end.

(** [new mongoose.Schema(def)]: the paths are interpreted in order. *)
Fixpoint Schema_new (def : SchemaDef) : Result Schema :=
  match def with
  | [] => Ok []
  | (path, d) :: rest =>
      match interpretAsType path d with
      | Throw e => Throw e
      | Ok p =>
          match Schema_new rest with
          | Throw e => Throw e
          | Ok ps => Ok ((path, p) :: ps)
          end
      end
  end.

(** A value as it is stored under a path of one of the three schema types. *)
Inductive Stored : Type :=
| SNull
| SString (s : string)
| SNumber (n : float)
| SDate (ms : Z).

(** A stored document: the paths that were set, in schema order. *)
Definition Document : Type := list (string * Stored).

(** A path of a document under construction. *)
Inductive PathState : Type :=
| Unset
| Assigned (v : Stored)
| CastFailed.

(** The casters on the values this development does not fix: [None] is a
    [CastError], [Some None] a cast to [null]. *)
Class Casters : Type := {
  castStringOther : JS.Value -> option string;
  castNumber : JS.Value -> option (option float);
  castDate : JS.Value -> option (option Z)
}.

Section Model.
Context `{Casters}.

(** [SchemaType.prototype.cast]: every caster returns [null] and [undefined]
    as they are; the string caster returns a string as it is. *)
Definition cast (ty : SchemaType) (v : JS.Value) : PathState :=
  match v with
  | JS.Undefined => Unset
  | JS.Null => Assigned SNull
  | _ =>
      match ty with
      | SchemaString =>
          match v with
          | JS.Str s => Assigned (SString s)
          | _ => match castStringOther v with
                 | Some s => Assigned (SString s)
                 | None => CastFailed
                 end
          end
      | SchemaNumber =>
          match castNumber v with
          | Some (Some n) => Assigned (SNumber n)
          | Some None => Assigned SNull
          | None => CastFailed
          end
      | SchemaDate =>
          match castDate v with
          | Some (Some ms) => Assigned (SDate ms)
          | Some None => Assigned SNull
          | None => CastFailed
          end
      end
  end.

(** A function default fills a path that is still [undefined] after the
    submitted values were set. *)
Definition applyDefault (now : Z) (p : SchemaPath) (st : PathState) : PathState :=
  match st, defaultValue p with
  | Unset, Some DateNow => Assigned (SDate now)
  | _, _ => st
  end.

(** A document in memory: each schema path with its state.  Keys of the
    submitted object that are not schema paths are dropped (strict mode). *)
Definition Doc : Type := list (string * (SchemaPath * PathState)).

(** [new Model(obj)], where [get] reads a property of [obj]. *)
Definition Model_new (schema : Schema) (get : string -> JS.Value) (now : Z) : Doc :=
  map (fun '(path, p) => (path, (p, applyDefault now p (cast (instance p) (get path))))) schema.

(** [checkRequired] of each schema type: a non-empty string, a number,
    a date. *)
Definition checkRequired (ty : SchemaType) (st : PathState) : bool :=
  match ty, st with
  | SchemaString, Assigned (SString s) => negb (String.eqb s "")
  | SchemaNumber, Assigned (SNumber _) => true
  | SchemaDate, Assigned (SDate _) => true
  | _, _ => false
  end.

Definition pathInvalid (entry : string * (SchemaPath * PathState)) : bool :=
  let '(_, (p, st)) := entry in
  match st with
  | CastFailed => true
  | _ => isRequired p && negb (checkRequired (instance p) st)
  end.

(** [doc.validate()]: the paths that fail. *)
Definition validate (doc : Doc) : list string :=
  map fst (filter (fun e => pathInvalid e = true) doc).

(** The object written to the store: the paths that hold a value. *)
Fixpoint toObject (doc : Doc) : Document :=
  match doc with
  | [] => []
  | (path, (_, Assigned v)) :: rest => (path, v) :: toObject rest
  | _ :: rest => toObject rest
  end.

(** [await doc.save()]: validation first; then one insert, which the store
    may refuse. *)
Definition save (doc : Doc) (storeUp : bool) (collection : list Document)
  : Result (list Document) :=
  match validate doc with
  | [] => if storeUp then Ok (collection ++ [toObject doc]) else Throw MongoError
  | failed => Throw (ValidationError failed)
  end.

End Model.

(** *** [find({}).sort({ timestamp: -1 })] *)

Fixpoint field (k : string) (d : Document) : option Stored :=
  match d with
  | [] => None
  | (k', v) :: rest => if String.eqb k k' then Some v else field k rest
  end.

(** The sort key.  The schema admits a date or [null] at [timestamp]; a
    document without a date sorts as [null], below every date. *)
Definition timestampOf (d : Document) : option Z :=
  match field "timestamp" d with
  | Some (SDate ms) => Some ms
  | _ => None
  end.

Definition keyLe (a b : option Z) : bool :=
  match a, b with
  | None, _ => true
  | Some _, None => false
  | Some x, Some y => Z.leb x y
  end.

(** Insert before the first document that is not newer. *)
Fixpoint insertDesc (d : Document) (sorted : list Document) : list Document :=
  match sorted with
  | [] => [d]
  | x :: rest =>
      if keyLe (timestampOf x) (timestampOf d) then d :: sorted
      else x :: insertDesc d rest
  end.

Definition sortDesc (docs : list Document) : list Document :=
  foldr insertDesc [] docs.

(** [await Model.find({}).sort({ timestamp: -1 })]. *)
Definition findSorted (storeUp : bool) (collection : list Document)
  : Result (list Document) :=
  if storeUp then Ok (sortDesc collection) else Throw MongoError.

End Mongoose.

(** ** The application: schema, session set, gate and routes *)
Module App.
Import Mongoose.

(** The two server files. *)
Inductive Variant : Type :=
| ServerJs   (* server.js: serves the front end from public/ *)
| ApiOnly.   (* the revision that only answers API calls *)

(** *** 3. The data structure (schema) *)

Definition requiredOf (t : TypeKey) : PathDef :=
  {| type := t; required := true; default := None |}.

Definition donationSchema (v : Variant) : SchemaDef :=
  match v with
  | ServerJs =>
      [ ("timestamp", {| type := TypeDate; required := false; default := Some DateNow |});
        ("firstName", requiredOf TypeString);
        ("lastName", requiredOf TypeString);
        ("email", requiredOf TypeString);
        ("address", requiredOf TypeString);
        ("country", requiredOf TypeString);
        ("amount", requiredOf TypeNumber);
        ("cardNumber", requiredOf TypeString);
        ("cardExpiry", requiredOf TypeString);
        ("cardCvc", requiredOf TypeString) ]
  | ApiOnly =>
      [ ("timestamp", {| type := TypeDate; required := false; default := Some DateNow |});
        ("firstName", requiredOf TypeString);
        ("lastName", requiredOf TypeString);
        ("email", requiredOf TypeString);
        ("address", requiredOf TypeString);
        ("country", requiredOf TypeString);
        ("amount", requiredOf TypeNumber);
        ("cardNumber", requiredOf TypeString);
        ("cardExpiry", requiredOf TypeString);
        ("cardCvc", requiredOf (TypeLiteral (JS.Bool true))) ]
  end.

(** [mongoose.model('Donation', new mongoose.Schema({...}))], evaluated when
    the file is loaded. *)
Definition Donation (v : Variant) : Result Schema :=
  Schema_new (donationSchema v).

(** *** Requests, responses and the state of the process *)

(** [req.body] after [bodyParser.json()]. *)
Inductive Body : Type :=
| BodyObject (fields : list (string * JS.Value))
| BodyArray (items : list JS.Value).

(** [req.body[k]] for the keys the program reads (["password"] and the schema
    paths): an array has none of them. *)
Definition prop (b : Body) (k : string) : JS.Value :=
  match b with
  | BodyObject fields => JS.lookup_field k fields
  | BodyArray _ => JS.Undefined
  end.

Record Request : Type := {
  authorization : option string;   (* req.headers.authorization *)
  body : Body;                     (* req.body *)
  adminToken : option string       (* req.adminToken, set by the gate *)
}.

Inductive Payload : Type :=
| Message (message : string)             (* { message } *)
| Token (token : string)                 (* { token } *)
| Donations (donations : list Document)  (* { donations } *)
| Status (status message : string).      (* { status, message } *)

Inductive Response : Type :=
| Json (status : nat) (payload : Payload)  (* res.status(n).json(...) *)
| SendFile (segments : list string).       (* res.sendFile(path.join(__dirname, ...)) *)

(** What the surroundings contribute to one request. *)
Record Env : Type := {
  uuid : string;    (* what uuidv4() returns if it is called *)
  now : Z;          (* what Date.now() returns if it is called *)
  storeUp : bool    (* whether the store call of this request succeeds *)
}.

Record World : Type := {
  adminSessions : gset string;   (* 4. admin session storage *)
  donations : list Document      (* the collection behind the model *)
}.

Definition Handler : Type := Request -> Env -> World -> Response * World.

(** A middleware either answers or calls [next()] on the request. *)
Inductive Outcome : Type :=
| Responded (r : Response)
| CalledNext (req : Request).

(** [app.METHOD(path, middleware, handler)]. *)
Definition guarded (middleware : Request -> World -> Outcome) (handler : Handler) : Handler :=
  fun req env w =>
    match middleware req w with
    | Responded r => (r, w)
    | CalledNext req' => handler req' env w
    end.

(** *** 5. Routes *)

(** Helper middleware: protects admin routes. *)
Definition authenticateAdmin (req : Request) (w : World) : Outcome :=
  let authHeader := authorization req in
  match authHeader with
  | None => Responded (Json 401 (Message "Authorization token missing"))
  | Some header =>
      if JS.falsy authHeader || negb (JS.startsWith header "Bearer ")
      then Responded (Json 401 (Message "Authorization token missing"))
      else
        let token := JS.trim (JS.replace header "Bearer " "") in
        if negb (JS.Set_has token (adminSessions w))
        then Responded (Json 403 (Message "Invalid or expired token"))
        else CalledNext {| authorization := authorization req;
                           body := body req;
                           adminToken := Some token |}
  end.

(** Root route. *)
Definition getRoot (v : Variant) : Handler :=
  fun _ _ w =>
    match v with
    | ServerJs => (SendFile ["public"; "index.html"], w)
    | ApiOnly => (Json 200 (Status "live" "Donation API is running!"), w)
    end.

Section Routes.
Context `{Casters}.
Variable ADMIN_PASSWORD : option string.   (* process.env.ADMIN_PASSWORD *)
Variable DonationModel : Schema.           (* the model, once the file is loaded *)

(** API: handle new donation. *)
Definition postDonations : Handler :=
  fun req env w =>
    let newDonation := Model_new DonationModel (prop (body req)) (now env) in
    match save newDonation (storeUp env) (donations w) with
    | Ok stored =>
        (Json 201 (Message "Donation received"),
         {| adminSessions := adminSessions w; donations := stored |})
    | Throw _ => (Json 500 (Message "Error saving donation"), w)
    end.

(** API: admin login. *)
Definition postLogin : Handler :=
  fun req env w =>
    let password := prop (body req) "password" in
    if negb (JS.strictEqualsEnv password ADMIN_PASSWORD)
    then (Json 401 (Message "Incorrect password"), w)
    else
      let token := uuid env in
      (Json 200 (Token token),
       {| adminSessions := JS.Set_add token (adminSessions w); donations := donations w |}).

(** API: admin logout (behind the gate). *)
Definition logout : Handler :=
  fun req _ w =>
    let sessions :=
      match adminToken req with
      | Some token => snd (JS.Set_delete token (adminSessions w))
      | None => adminSessions w
      end in
    (Json 200 (Message "Logged out successfully"),
     {| adminSessions := sessions; donations := donations w |}).

(** API: get all donations (behind the gate). *)
Definition listDonations : Handler :=
  fun _ env w =>
    match findSorted (storeUp env) (donations w) with
    | Ok found => (Json 200 (Donations found), w)
    | Throw _ => (Json 500 (Message "Error fetching records"), w)
    end.

Inductive Endpoint : Type :=
| GET_root
| POST_donations
| POST_admin_login
| POST_admin_logout
| GET_admin_donations.

Definition route (v : Variant) (e : Endpoint) : Handler :=
  match e with
  | GET_root => getRoot v
  | POST_donations => postDonations
  | POST_admin_login => postLogin
  | POST_admin_logout => guarded authenticateAdmin logout
  | GET_admin_donations => guarded authenticateAdmin listDonations
  end.

(** One request as the process sees it. *)
Record Event : Type := {
  endpoint : Endpoint;
  request : Request;
  env : Env
}.

Definition step (v : Variant) (w : World) (ev : Event) : World :=
  snd (route v (endpoint ev) (request ev) (env ev) w).

Definition respond (v : Variant) (w : World) (ev : Event) : Response :=
  fst (route v (endpoint ev) (request ev) (env ev) w).

(** The state after a sequence of requests. *)
Definition run (v : Variant) (w : World) (evs : list Event) : World :=
  fold_left (step v) evs w.

End Routes.

(** *** Vocabulary of the statements below *)

(** The token a well-formed [Authorization] header carries. *)
Definition bearerToken (header : option string) : option string :=
  match header with
  | Some h =>
      if negb (String.eqb h "") && JS.startsWith h "Bearer "
      then Some (JS.trim (JS.skip 7 h))
      else None
  | None => None
  end.

(** The request is a login that the password check lets through and whose
    generated token is [t]. *)
Definition issues (ADMIN_PASSWORD : option string) (t : string) (ev : Event) : bool :=
  match endpoint ev with
  | POST_admin_login =>
      JS.strictEqualsEnv (prop (body (request ev)) "password") ADMIN_PASSWORD
      && String.eqb (uuid (env ev)) t
  | _ => false
  end.

(** The request is a logout that carries [t] as its bearer token. *)
Definition revokes (t : string) (ev : Event) : bool :=
  match endpoint ev with
  | POST_admin_logout =>
      match bearerToken (authorization (request ev)) with
      | Some t' => String.eqb t' t
      | None => false
      end
  | _ => false
  end.

(** The header is absent, or is there and does not start with [Bearer ]. *)
Definition credentialMissing (req : Request) : Prop :=
  authorization req = None \/
  exists h, authorization req = Some h /\ JS.startsWith h "Bearer " = false.

(** The header starts with [Bearer ] and [token] is what the gate extracts. *)
Definition credentialCarries (req : Request) (token : string) : Prop :=
  exists h, authorization req = Some h /\ JS.startsWith h "Bearer " = true
            /\ token = JS.trim (JS.replace h "Bearer " "").

(** [process.env.X] as a JavaScript value. *)
Definition envValue (e : option string) : JS.Value :=
  match e with
  | Some s => JS.Str s
  | None => JS.Undefined
  end.

(** The model [server.js] builds when it is loaded. *)
Definition ServerJsModel : Schema :=
  Eval cbv in match Donation ServerJs with Ok m => m | Throw _ => [] end.

(** Casters that convert nothing: a value passes only if it already has the
    type of its path.  JSON has no dates, so a submitted timestamp other than
    [null] is refused. *)
Definition strictCasters : Casters :=
  {| castStringOther := fun _ => None;
     castNumber := fun v => match v with JS.Num n => Some (Some n) | _ => None end;
     castDate := fun _ => None |}.

(** The declaration a schema definition holds for [path]. *)
Fixpoint declared (path : string) (def : SchemaDef) : option PathDef :=
  match def with
  | [] => None
  | (k, d) :: rest => if String.eqb path k then Some d else declared path rest
  end.

(** Sample requests and states for the closed statements below. *)
Definition anonymous : Request :=
  {| authorization := None; body := BodyObject []; adminToken := None |}.

Definition bearing (header : string) : Request :=
  {| authorization := Some header; body := BodyObject []; adminToken := None |}.

Definition submitting (fields : list (string * JS.Value)) : Request :=
  {| authorization := None; body := BodyObject fields; adminToken := None |}.

Definition quiet : Env := {| uuid := "1b9d6bcd-bbfd-4b2d-9b5d-ab8dfbbd4bed"; now := 1700000000000; storeUp := true |}.

Definition fresh : World := {| adminSessions := ∅; donations := [] |}.

Definition calling (e : Endpoint) (req : Request) : Event :=
  {| endpoint := e; request := req; env := quiet |}.

(** A stored donation made at [ms] (milliseconds since the epoch). *)
Definition donationAt (ms : Z) (firstName : string) : Document :=
  [ ("timestamp", SDate ms); ("firstName", SString firstName);
    ("lastName", SString "B"); ("email", SString "a@b.com");
    ("address", SString "X"); ("country", SString "Y"); ("amount", SNumber 10%float);
    ("cardNumber", SString "4111"); ("cardExpiry", SString "12/30");
    ("cardCvc", SString "123") ].

(** The submission of the specification's scenario. *)
Definition scenarioFields : list (string * JS.Value) :=
  [ ("firstName", JS.Str "A"); ("lastName", JS.Str "B"); ("email", JS.Str "a@b.com");
    ("address", JS.Str "X"); ("country", JS.Str "Y"); ("amount", JS.Num 10%float);
    ("cardNumber", JS.Str "4111"); ("cardExpiry", JS.Str "12/30");
    ("cardCvc", JS.Str "123") ].

(** The fields a submission must carry. *)
Definition requiredFields : list string :=
  [ "firstName"; "lastName"; "email"; "address"; "country"; "amount";
    "cardNumber"; "cardExpiry"; "cardCvc" ].

(** The model declares [path] required, with no default to fill it. *)
Definition declaresRequired (model : Schema) (path : string) : Prop :=
  exists p, In (path, p) model /\ isRequired p = true /\ defaultValue p = None.

(** Newest first: each document is at least as new as the next one. *)
Definition newerOrEqual (a b : Document) : Prop :=
  keyLe (timestampOf b) (timestampOf a) = true.

(** *** CORS policy of the API-only file *)

(** [allowedOrigins]. *)
Definition allowedOrigins : list string :=
  [ "https://war-kids-org.vercel.app"; "http://localhost:3000" ].

(** [list.includes(x)] on strings. *)
Definition includes (l : list string) (x : string) : bool :=
  existsb (String.eqb x) l.

(** What the [origin] function hands to its callback:
    [callback(null, true)] or [callback(new Error(message), false)]. *)
Inductive CorsDecision : Type :=
| CorsAllow
| CorsError (message : string).

(** The [origin] option passed to [cors]: called with the request's [Origin]
    header, [undefined] when the request has none. *)
Definition corsOrigin (origin : option string) : CorsDecision :=
  match origin with
  | None => CorsAllow
  | Some o =>
      if JS.falsy origin || includes allowedOrigins o
      then CorsAllow
      else CorsError "Not allowed by CORS"
  end.

(** *** More vocabulary *)

(** The status line of an answer; a file sent has none set by the route. *)
Definition statusOf (r : Response) : option nat :=
  match r with
  | Json status _ => Some status
  | SendFile _ => None
  end.

(** The document holds, under every required path of the model, a value its
    [required] validator accepts. *)
Definition meetsRequired (model : Schema) (d : Document) : bool :=
  forallb (fun entry : string * SchemaPath =>
             negb (isRequired (snd entry))
             || match field (fst entry) d with
                | Some x => checkRequired (instance (snd entry)) (Assigned x)
                | None => false
                end) model.

(** The document holds a non-empty string under [path]. *)
Definition holdsText (path : string) (d : Document) : Prop :=
  exists s, field path d = Some (SString s) /\ s <> "".

(** Only white space. *)
Fixpoint allWhiteSpace (s : string) : bool :=
  match s with
  | EmptyString => true
  | String c rest => JS.isWhiteSpace c && allWhiteSpace rest
  end.

(** The request is a login that the password check lets through. *)
Definition loginAccepted (ADMIN_PASSWORD : option string) (ev : Event) : bool :=
  match endpoint ev with
  | POST_admin_login =>
      JS.strictEqualsEnv (prop (body (request ev)) "password") ADMIN_PASSWORD
  | _ => false
  end.

(** The request goes to a route that can write to the session set. *)
Definition sessionRoute (e : Endpoint) : bool :=
  match e with
  | POST_admin_login | POST_admin_logout => true
  | _ => false
  end.

(** *** Order of a listing, read off the documents *)

(** [a] may stand before [b] in a listing that is newest first: if [b] holds
    a date under [timestamp], then [a] holds a date that is not earlier. *)
Definition datedNoEarlier (a b : Document) : Prop :=
  forall ms_b,
    field "timestamp" b = Some (SDate ms_b) ->
    exists ms_a, field "timestamp" a = Some (SDate ms_a) /\ (ms_b <= ms_a)%Z.

(** The two documents hold the same date under [timestamp], or neither
    holds a date. *)
Definition sameDate (a b : Document) : Prop :=
  forall ms,
    field "timestamp" a = Some (SDate ms) <-> field "timestamp" b = Some (SDate ms).

(** *** Header values as they are delivered *)

(** The last character is a space or a tab.  The HTTP parser strips both
    from the end of a header value, so no delivered value ends in one. *)
Fixpoint endsInBlank (s : string) : bool :=
  match s with
  | EmptyString => false
  | String c EmptyString => Nat.eqb (nat_of_ascii c) 32 || Nat.eqb (nat_of_ascii c) 9
  | String _ rest => endsInBlank rest
  end.

(** A no-break space, code unit 160. *)
Definition nbsp : string := String (ascii_of_nat 160) EmptyString.

End App.

(** * Properties *)

Import Mongoose App.

(** Membership goals about the session set, after unfolding the [Set] methods. *)
Ltac sessions_solver :=
  unfold JS.Set_add, JS.Set_delete in *; cbn [fst snd adminSessions] in *; set_solver.

(** ** The string methods *)

Lemma skip_0 (s : string) : JS.skip 0 s = s.
Proof. destruct s; reflexivity. Qed.

(** Replacing a pattern the string starts with removes that prefix. *)
Lemma replace_at_start (s pattern : string) :
  JS.startsWith s pattern = true ->
  JS.replace s pattern "" = JS.skip (String.length pattern) s.
Proof.
  unfold JS.startsWith. intros Hp.
  destruct s as [|c rest]; cbn [JS.replace]; rewrite Hp; reflexivity.
Qed.

Lemma startsWith_empty (p : string) :
  p <> "" -> JS.startsWith "" p = false.
Proof. destruct p; [congruence | reflexivity]. Qed.

(** The gate, read through [bearerToken]. *)
Lemma authenticateAdmin_bearer (req : Request) (w : World) :
  authenticateAdmin req w =
  match bearerToken (authorization req) with
  | None => Responded (Json 401 (Message "Authorization token missing"))
  | Some token =>
      if JS.Set_has token (adminSessions w)
      then CalledNext {| authorization := authorization req;
                         body := body req;
                         adminToken := Some token |}
      else Responded (Json 403 (Message "Invalid or expired token"))
  end.
Proof.
  unfold authenticateAdmin, bearerToken, JS.falsy.
  destruct (authorization req) as [h|]; [|reflexivity].
  destruct (String.eqb h "") eqn:He; cbn [orb negb andb]; [reflexivity|].
  destruct (JS.startsWith h "Bearer ") eqn:Hs; cbn [negb]; [|reflexivity].
  rewrite (replace_at_start h "Bearer " Hs).
  change (String.length "Bearer ") with 7.
  destruct (JS.Set_has _ _); reflexivity.
Qed.


Lemma bearerToken_wellformed (h : string) :
  JS.startsWith h "Bearer " = true ->
  bearerToken (Some h) = Some (JS.trim (JS.replace h "Bearer " "")).
Proof.
  intros Hs. unfold bearerToken.
  destruct (String.eqb h "") eqn:He.
  - apply String.eqb_eq in He. subst h. discriminate Hs.
  - cbn [negb andb]. rewrite Hs. now rewrite (replace_at_start h "Bearer " Hs).
Qed.

Lemma bearerToken_malformed (h : string) :
  JS.startsWith h "Bearer " = false -> bearerToken (Some h) = None.
Proof.
  intros Hs. unfold bearerToken. rewrite Hs.
  now rewrite andb_false_r.
Qed.

Lemma Set_has_true (t : string) (S : gset string) :
  JS.Set_has t S = true <-> t ∈ S.
Proof. unfold JS.Set_has. apply bool_decide_eq_true. Qed.

Lemma Set_has_false (t : string) (S : gset string) :
  JS.Set_has t S = false <-> t ∉ S.
Proof. unfold JS.Set_has. apply bool_decide_eq_false. Qed.

(** ** The admin gate *)

Lemma gate_401 (wrapped : Handler) (req : Request) (env : Env) (w : World) :
  credentialMissing req ->
  guarded authenticateAdmin wrapped req env w
  = (Json 401 (Message "Authorization token missing"), w).
Proof.
  intros Hm. unfold guarded. rewrite authenticateAdmin_bearer.
  destruct Hm as [Hn | (h & Hh & Hs)].
  - rewrite Hn. reflexivity.
  - rewrite Hh, (bearerToken_malformed h Hs). reflexivity.
Qed.

Lemma gate_403 (wrapped : Handler) (req : Request) (env : Env) (w : World) (token : string) :
  credentialCarries req token ->
  token ∉ adminSessions w ->
  guarded authenticateAdmin wrapped req env w
  = (Json 403 (Message "Invalid or expired token"), w).
Proof.
  intros (h & Hh & Hs & ->) Hnot. unfold guarded.
  rewrite authenticateAdmin_bearer, Hh, (bearerToken_wellformed h Hs).
  apply Set_has_false in Hnot. rewrite Hnot. reflexivity.
Qed.

(** C1.  On the two admin-gated routes, [POST /api/admin/logout] and
    [GET /api/admin/donations]: a request without an [Authorization] header,
    or with one that does not start with [Bearer ], is answered
    [401 "Authorization token missing"]; a request whose header is well formed
    but whose extracted token is not in the session set is answered
    [403 "Invalid or expired token"].  Both routes are the gate in front of a
    wrapped handler, and in both failure cases the answer and the state are
    the same whatever the wrapped handler is: it does not run. *)
Theorem gate_rejects_before_wrapped_handler
  `{Casters} (pw : option string) (model : Schema) (v : Variant) (e : Endpoint) :
  e = POST_admin_logout \/ e = GET_admin_donations ->
  (exists wrapped, route pw model v e = guarded authenticateAdmin wrapped) /\
  (forall req env w,
      credentialMissing req ->
      route pw model v e req env w
      = (Json 401 (Message "Authorization token missing"), w)
      /\ forall wrapped,
          guarded authenticateAdmin wrapped req env w
          = (Json 401 (Message "Authorization token missing"), w)) /\
  (forall req env w token,
      credentialCarries req token ->
      token ∉ adminSessions w ->
      route pw model v e req env w
      = (Json 403 (Message "Invalid or expired token"), w)
      /\ forall wrapped,
          guarded authenticateAdmin wrapped req env w
          = (Json 403 (Message "Invalid or expired token"), w)).
Proof.
  intros He.
  assert (Hr : exists wrapped, route pw model v e = guarded authenticateAdmin wrapped).
  { destruct He as [-> | ->]; eexists; reflexivity. }
  destruct Hr as [wrapped0 Hr]. split; [eauto|]. split.
  - intros req env w Hm. split.
    + rewrite Hr. now apply gate_401.
    + intros wrapped. now apply gate_401.
  - intros req env w token Hc Hnot. split.
    + rewrite Hr. now apply gate_403 with token.
    + intros wrapped. now apply gate_403 with token.
Qed.

Lemma gate_rejects_before_wrapped_handler_witness :
  route (H := strictCasters) (Some "secret") ServerJsModel ApiOnly GET_admin_donations
        anonymous quiet fresh
  = (Json 401 (Message "Authorization token missing"), fresh)
  /\ route (H := strictCasters) (Some "secret") ServerJsModel ApiOnly GET_admin_donations
        (bearing "Bearer not-a-real-token") quiet fresh
  = (Json 403 (Message "Invalid or expired token"), fresh).
Proof.
  destruct (gate_rejects_before_wrapped_handler (H := strictCasters)
              (Some "secret") ServerJsModel ApiOnly GET_admin_donations
              (or_intror eq_refl)) as (_ & H401 & H403).
  split.
  - apply H401. left. reflexivity.
  - apply (H403 _ _ _ "not-a-real-token").
    + exists "Bearer not-a-real-token". repeat split; reflexivity.
    + cbn. set_solver.
Defined.

(** ** Login *)

Lemma strictEqualsEnv_spec (v : JS.Value) (e : option string) :
  JS.strictEqualsEnv v e = true <-> v = envValue e.
Proof.
  destruct v, e; cbn; try (split; [discriminate | congruence]); try tauto.
  rewrite String.eqb_eq. split; congruence.
Qed.

Lemma postLogin_accepts (pw : option string) (req : Request) (env : Env) (w : World) :
  prop (body req) "password" = envValue pw ->
  postLogin pw req env w
  = (Json 200 (Token (uuid env)),
     {| adminSessions := {[ uuid env ]} ∪ adminSessions w; donations := donations w |}).
Proof.
  intros Heq. apply strictEqualsEnv_spec in Heq.
  unfold postLogin. rewrite Heq. reflexivity.
Qed.

Lemma postLogin_refuses (pw : option string) (req : Request) (env : Env) (w : World) :
  prop (body req) "password" <> envValue pw ->
  postLogin pw req env w = (Json 401 (Message "Incorrect password"), w).
Proof.
  intros Hne. unfold postLogin.
  destruct (JS.strictEqualsEnv _ pw) eqn:Heq; [|reflexivity].
  apply strictEqualsEnv_spec in Heq. contradiction.
Qed.

(** C2.  [POST /api/admin/login]: when the submitted password is the
    configured one (the same string, compared with [===]), the answer is
    [200 { token }] where [token] is the value [uuidv4()] produced for this
    request, and the session set becomes the old one plus that token; in
    every other case the answer is [401 "Incorrect password"] and the state is
    unchanged. *)
Theorem login_checks_password
  `{Casters} (pw : option string) (model : Schema) (v : Variant)
  (req : Request) (env : Env) (w : World) :
  (prop (body req) "password" = envValue pw ->
     route pw model v POST_admin_login req env w
     = (Json 200 (Token (uuid env)),
        {| adminSessions := {[ uuid env ]} ∪ adminSessions w;
           donations := donations w |}))
  /\ (prop (body req) "password" <> envValue pw ->
     route pw model v POST_admin_login req env w
     = (Json 401 (Message "Incorrect password"), w)).
Proof.
  split; intros Hp; cbn [route].
  - now apply postLogin_accepts.
  - now apply postLogin_refuses.
Qed.

Lemma login_checks_password_witness :
  route (H := strictCasters) (Some "secret") ServerJsModel ApiOnly POST_admin_login
        (submitting [("password", JS.Str "secret")]) quiet fresh
  = (Json 200 (Token (uuid quiet)),
     {| adminSessions := {[ uuid quiet ]} ∪ ∅; donations := [] |})
  /\ route (H := strictCasters) (Some "secret") ServerJsModel ApiOnly POST_admin_login
        (submitting [("password", JS.Str "wrong")]) quiet fresh
  = (Json 401 (Message "Incorrect password"), fresh).
Proof.
  split.
  - apply (login_checks_password (H := strictCasters) (Some "secret") ServerJsModel ApiOnly
             (submitting [("password", JS.Str "secret")]) quiet fresh).
    reflexivity.
  - apply (login_checks_password (H := strictCasters) (Some "secret") ServerJsModel ApiOnly
             (submitting [("password", JS.Str "wrong")]) quiet fresh).
    cbn. discriminate.
Defined.

(** C10.  With no [ADMIN_PASSWORD] in the environment, a login whose body has
    no [password] passes the check ([undefined === undefined]): the answer is
    [200 { token }], the token is in the session set afterwards, and the gate
    lets a request carrying it through. *)
Theorem login_succeeds_when_both_undefined
  `{Casters} (model : Schema) (v : Variant) (req : Request) (env : Env) (w : World) :
  prop (body req) "password" = JS.Undefined ->
  exists w',
    route None model v POST_admin_login req env w = (Json 200 (Token (uuid env)), w')
    /\ uuid env ∈ adminSessions w'
    /\ forall req2, bearerToken (authorization req2) = Some (uuid env) ->
         authenticateAdmin req2 w'
         = CalledNext {| authorization := authorization req2;
                         body := body req2;
                         adminToken := Some (uuid env) |}.
Proof.
  intros Hp. eexists. split; [|split].
  - cbn [route]. apply postLogin_accepts. exact Hp.
  - cbn. set_solver.
  - intros req2 Hb. rewrite authenticateAdmin_bearer, Hb.
    assert (Hin : JS.Set_has (uuid env) ({[ uuid env ]} ∪ adminSessions w) = true)
      by (apply Set_has_true; set_solver).
    cbn [adminSessions]. rewrite Hin. reflexivity.
Qed.

Lemma login_succeeds_when_both_undefined_witness :
  exists w',
    route (H := strictCasters) None ServerJsModel ApiOnly POST_admin_login
          (submitting []) quiet fresh
    = (Json 200 (Token (uuid quiet)), w')
    /\ uuid quiet ∈ adminSessions w'.
Proof.
  destruct (login_succeeds_when_both_undefined (H := strictCasters) ServerJsModel ApiOnly
              (submitting []) quiet fresh eq_refl) as (w' & Hr & Hin & _).
  exists w'. split; assumption.
Defined.

(** ** Logout and the session set *)

Lemma Set_delete_absent (t : string) (S : gset string) :
  t ∉ S -> JS.Set_delete t S = (false, S).
Proof.
  intros Hnot. unfold JS.Set_delete. f_equal.
  - now apply bool_decide_eq_false.
  - set_solver.
Qed.

Lemma Set_delete_twice (t : string) (S : gset string) :
  snd (JS.Set_delete t (snd (JS.Set_delete t S))) = snd (JS.Set_delete t S).
Proof. cbn. set_solver. Qed.

Lemma world_eta (w : World) :
  {| adminSessions := adminSessions w; donations := donations w |} = w.
Proof. destruct w; reflexivity. Qed.

(** C4.  Revoking is idempotent.  [delete] on a session set that does not
    hold the token reports [false], raises nothing and leaves the set as it
    was; deleting the same token twice leaves the set that one deletion
    leaves.  The logout handler inherits both: run on a token that is not in
    the set it answers as usual and changes nothing, and run twice it leaves
    the state it leaves when run once. *)
Theorem revoke_idempotent (t : string) (S : gset string) :
  (t ∉ S -> JS.Set_delete t S = (false, S))
  /\ snd (JS.Set_delete t (snd (JS.Set_delete t S))) = snd (JS.Set_delete t S)
  /\ (forall req env w,
        adminToken req = Some t ->
        (t ∉ adminSessions w ->
           logout req env w = (Json 200 (Message "Logged out successfully"), w))
        /\ snd (logout req env (snd (logout req env w))) = snd (logout req env w)).
Proof.
  split; [apply Set_delete_absent|]. split; [apply Set_delete_twice|].
  intros req env w Ht. unfold logout. rewrite Ht. split.
  - intros Hnot. rewrite (Set_delete_absent t _ Hnot). cbn [snd].
    now rewrite world_eta.
  - cbn [snd adminSessions donations]. f_equal. set_solver.
Qed.

Lemma revoke_idempotent_witness :
  JS.Set_delete "t1" {[ "t0" ]} = (false, {[ "t0" ]})
  /\ logout {| authorization := None; body := BodyObject []; adminToken := Some "t1" |}
            quiet fresh
     = (Json 200 (Message "Logged out successfully"), fresh).
Proof.
  split.
  - apply (revoke_idempotent "t1" {[ "t0" ]}). set_solver.
  - apply (revoke_idempotent "t1" ∅); [reflexivity | cbn; set_solver].
Defined.

(** ** The root route *)

(** C7, as stated, fails on [server.js]: its root route sends the file
    [public/index.html], not a JSON status. *)
Lemma root_of_serverjs_sends_file :
  route (H := strictCasters) None ServerJsModel ServerJs GET_root anonymous quiet fresh
  = (SendFile ["public"; "index.html"], fresh)
  /\ ~ exists message,
       fst (route (H := strictCasters) None ServerJsModel ServerJs GET_root
                  anonymous quiet fresh)
       = Json 200 (Status "live" message).
Proof.
  split; [reflexivity|]. intros [message Hm]. discriminate Hm.
Qed.

(** C7, amended.  [GET /] needs no credential and changes nothing.  In the
    API-only file the answer is [200 { status: "live", message: "Donation API
    is running!" }] for every request; in [server.js] the answer is the file
    [public/index.html]. *)
Theorem root_route_answer
  `{Casters} (pw : option string) (model : Schema) (req : Request) (env : Env) (w : World) :
  route pw model ApiOnly GET_root req env w
  = (Json 200 (Status "live" "Donation API is running!"), w)
  /\ route pw model ServerJs GET_root req env w
  = (SendFile ["public"; "index.html"], w).
Proof. split; reflexivity. Qed.

(** ** The schema *)

(** C8, evaluated on the two declarations.  [server.js] declares
    [cardNumber], [cardExpiry] and [cardCvc] as required [String] paths and
    its model is built.  The API-only file declares [cardCvc] with
    [type: true]: that is no schema type, and building the schema throws the
    invalid-configuration [TypeError] at that path. *)
Theorem cardCvc_declaration :
  map (fun k => declared k (donationSchema ServerJs)) ["cardNumber"; "cardExpiry"; "cardCvc"]
  = [Some (requiredOf TypeString); Some (requiredOf TypeString); Some (requiredOf TypeString)]
  /\ Donation ServerJs = Ok ServerJsModel
  /\ map (fun k => declared k (donationSchema ApiOnly)) ["cardNumber"; "cardExpiry"; "cardCvc"]
  = [Some (requiredOf TypeString); Some (requiredOf TypeString);
     Some (requiredOf (TypeLiteral (JS.Bool true)))]
  /\ Donation ApiOnly = Throw (TypeError "cardCvc").
Proof. repeat split; reflexivity. Qed.

(** ** One request at a time: what a step does to the state *)

Section Steps.
Context `{Casters}.
Variable pw : option string.
Variable model : Schema.
Variable v : Variant.

Lemma guarded_gate_cases (wrapped : Handler) (req : Request) (env : Env) (w : World) :
  (guarded authenticateAdmin wrapped req env w = (Json 401 (Message "Authorization token missing"), w)
   /\ bearerToken (authorization req) = None)
  \/ (exists t, bearerToken (authorization req) = Some t /\ (t ∉ adminSessions w)
      /\ guarded authenticateAdmin wrapped req env w
         = (Json 403 (Message "Invalid or expired token"), w))
  \/ (exists t, bearerToken (authorization req) = Some t /\ (t ∈ adminSessions w)
      /\ guarded authenticateAdmin wrapped req env w
         = wrapped {| authorization := authorization req; body := body req;
                      adminToken := Some t |} env w).
Proof.
  unfold guarded. rewrite authenticateAdmin_bearer.
  destruct (bearerToken (authorization req)) as [t|]; [|left; split; reflexivity].
  right. destruct (JS.Set_has t (adminSessions w)) eqn:Hh.
  - right. exists t. apply Set_has_true in Hh. repeat split; assumption.
  - left. exists t. apply Set_has_false in Hh. repeat split; assumption.
Qed.

Lemma postDonations_sessions (req : Request) (env : Env) (w : World) :
  adminSessions (snd (postDonations model req env w)) = adminSessions w.
Proof.
  unfold postDonations. destruct (save _ _ _); reflexivity.
Qed.

Lemma listDonations_state (req : Request) (env : Env) (w : World) :
  snd (listDonations req env w) = w.
Proof.
  unfold listDonations. destruct (findSorted _ _); reflexivity.
Qed.

Lemma getRoot_state (req : Request) (env : Env) (w : World) :
  snd (getRoot v req env w) = w.
Proof. unfold getRoot. destruct v; reflexivity. Qed.

(** A request that does not revoke [t] leaves [t] in the session set. *)
Lemma step_keeps_token (t : string) (w : World) (ev : Event) :
  t ∈ adminSessions w ->
  revokes t ev = false ->
  t ∈ adminSessions (step pw model v w ev).
Proof.
  intros Hin Hrev. unfold step, revokes in *.
  destruct (endpoint ev); cbn [route].
  - now rewrite getRoot_state.
  - now rewrite postDonations_sessions.
  - unfold postLogin. destruct (negb _); cbn; [assumption | sessions_solver].
  - destruct (guarded_gate_cases logout (request ev) (env ev) w)
      as [[-> _] | [(t' & _ & _ & ->) | (t' & Hb & _ & ->)]]; try assumption.
    rewrite Hb in Hrev. apply String.eqb_neq in Hrev.
    cbn. sessions_solver.
  - destruct (guarded_gate_cases listDonations (request ev) (env ev) w)
      as [[-> _] | [(t' & _ & _ & ->) | (t' & _ & _ & ->)]]; try assumption.
    now rewrite listDonations_state.
Qed.

(** A request that does not issue [t] does not put [t] in the session set. *)
Lemma step_does_not_issue (t : string) (w : World) (ev : Event) :
  t ∉ adminSessions w ->
  issues pw t ev = false ->
  t ∉ adminSessions (step pw model v w ev).
Proof.
  intros Hnot Hiss. unfold step, issues in *.
  destruct (endpoint ev); cbn [route].
  - now rewrite getRoot_state.
  - now rewrite postDonations_sessions.
  - unfold postLogin.
    destruct (JS.strictEqualsEnv _ pw); cbn [negb andb] in *; [|assumption].
    apply String.eqb_neq in Hiss. cbn. sessions_solver.
  - destruct (guarded_gate_cases logout (request ev) (env ev) w)
      as [[-> _] | [(t' & _ & _ & ->) | (t' & _ & _ & ->)]]; try assumption.
    unfold logout. cbn. sessions_solver.
  - destruct (guarded_gate_cases listDonations (request ev) (env ev) w)
      as [[-> _] | [(t' & _ & _ & ->) | (t' & _ & _ & ->)]]; try assumption.
    now rewrite listDonations_state.
Qed.

(** A login that issues [t] puts it in the session set. *)
Lemma step_issues (t : string) (w : World) (ev : Event) :
  issues pw t ev = true ->
  respond pw model v w ev = Json 200 (Token t)
  /\ t ∈ adminSessions (step pw model v w ev).
Proof.
  unfold issues, step, respond.
  destruct (endpoint ev); try discriminate.
  intros Hi. apply andb_true_iff in Hi as [Hp Hu].
  apply String.eqb_eq in Hu. subst t.
  cbn [route]. unfold postLogin. rewrite Hp. cbn. split; [reflexivity | sessions_solver].
Qed.

(** A logout that carries [t] leaves the session set without [t]. *)
Lemma step_revokes (t : string) (w : World) (ev : Event) :
  revokes t ev = true ->
  t ∉ adminSessions (step pw model v w ev).
Proof.
  unfold revokes, step.
  destruct (endpoint ev); try discriminate.
  destruct (bearerToken (authorization (request ev))) as [t'|] eqn:Hb; [|discriminate].
  intros Heq. apply String.eqb_eq in Heq. subst t'.
  cbn [route].
  destruct (guarded_gate_cases logout (request ev) (env ev) w)
    as [[_ Hn] | [(t' & Hb' & Hnot & ->) | (t' & Hb' & _ & ->)]].
  - congruence.
  - cbn. congruence.
  - assert (t' = t) by congruence. subst t'. cbn. sessions_solver.
Qed.

Lemma run_keeps_token (t : string) (evs : list Event) (w : World) :
  t ∈ adminSessions w ->
  Forall (fun ev => revokes t ev = false) evs ->
  t ∈ adminSessions (run pw model v w evs).
Proof.
  revert w. induction evs as [|ev evs IH]; intros w Hin Hall; [exact Hin|].
  inversion Hall as [|? ? Hev Hrest]; subst.
  cbn [run fold_left]. apply IH; [|exact Hrest].
  now apply step_keeps_token.
Qed.

Lemma run_does_not_issue (t : string) (evs : list Event) (w : World) :
  t ∉ adminSessions w ->
  Forall (fun ev => issues pw t ev = false) evs ->
  t ∉ adminSessions (run pw model v w evs).
Proof.
  revert w. induction evs as [|ev evs IH]; intros w Hnot Hall; [exact Hnot|].
  inversion Hall as [|? ? Hev Hrest]; subst.
  cbn [run fold_left]. apply IH; [|exact Hrest].
  now apply step_does_not_issue.
Qed.

(** Every step extends the collection at its end, or leaves it. *)
Lemma step_appends (w : World) (ev : Event) :
  exists added, donations (step pw model v w ev) = donations w ++ added
                /\ length added <= 1.
Proof.
  unfold step. destruct (endpoint ev); cbn [route].
  - exists []. rewrite getRoot_state, app_nil_r. split; [reflexivity | cbn; lia].
  - unfold postDonations, save.
    destruct (validate _); [destruct (storeUp (env ev))|]; cbn.
    + eexists [_]. split; [reflexivity | cbn; lia].
    + exists []. rewrite app_nil_r. split; [reflexivity | cbn; lia].
    + exists []. rewrite app_nil_r. split; [reflexivity | cbn; lia].
  - exists []. rewrite app_nil_r. split; [|cbn; lia].
    unfold postLogin. destruct (negb _); reflexivity.
  - exists []. rewrite app_nil_r. split; [|cbn; lia].
    destruct (guarded_gate_cases logout (request ev) (env ev) w)
      as [[-> _] | [(t' & _ & _ & ->) | (t' & _ & _ & ->)]]; reflexivity.
  - exists []. rewrite app_nil_r. split; [|cbn; lia].
    destruct (guarded_gate_cases listDonations (request ev) (env ev) w)
      as [[-> _] | [(t' & _ & _ & ->) | (t' & _ & _ & ->)]]; try reflexivity.
    now rewrite listDonations_state.
Qed.

Lemma run_appends (evs : list Event) (w : World) :
  exists added, donations (run pw model v w evs) = donations w ++ added
                /\ length added <= length evs.
Proof.
  revert w. induction evs as [|ev evs IH]; intros w.
  - exists []. rewrite app_nil_r. split; [reflexivity | cbn; lia].
  - cbn [run fold_left].
    destruct (step_appends w ev) as (a1 & H1 & L1).
    destruct (IH (step pw model v w ev)) as (a2 & H2 & L2).
    exists (a1 ++ a2). split.
    + unfold run in H2. rewrite H2, H1, app_assoc. reflexivity.
    + rewrite length_app. cbn [length]. lia.
Qed.

End Steps.

(** ** Sessions over time *)

(** C3.  Let [t] be the token a login returns.  [t] is in the session set,
    and the gate lets a request carrying [t] through, in every state reached
    by later requests as long as none of them is a logout carrying [t].  After
    a logout carrying [t], [t] is not in the session set, and an admin-gated
    request carrying [t] is answered [403], in every state reached by later
    requests as long as no login issues [t] again. *)
Theorem token_valid_until_revoked
  `{Casters} (pw : option string) (model : Schema) (v : Variant) (t : string) :
  (forall w ev,
      issues pw t ev = true ->
      respond pw model v w ev = Json 200 (Token t)
      /\ forall evs,
          Forall (fun ev' => revokes t ev' = false) evs ->
          JS.Set_has t (adminSessions (run pw model v (step pw model v w ev) evs)) = true
          /\ forall req,
              bearerToken (authorization req) = Some t ->
              authenticateAdmin req (run pw model v (step pw model v w ev) evs)
              = CalledNext {| authorization := authorization req;
                              body := body req;
                              adminToken := Some t |})
  /\ (forall w ev,
      revokes t ev = true ->
      forall evs,
        Forall (fun ev' => issues pw t ev' = false) evs ->
        JS.Set_has t (adminSessions (run pw model v (step pw model v w ev) evs)) = false
        /\ forall e req env,
            e = POST_admin_logout \/ e = GET_admin_donations ->
            bearerToken (authorization req) = Some t ->
            route pw model v e req env (run pw model v (step pw model v w ev) evs)
            = (Json 403 (Message "Invalid or expired token"),
               run pw model v (step pw model v w ev) evs)).
Proof.
  split.
  - intros w ev Hi. destruct (step_issues pw model v t w ev Hi) as [Hr Hin].
    split; [exact Hr|]. intros evs Hall.
    pose proof (run_keeps_token pw model v t evs _ Hin Hall) as Hk.
    apply Set_has_true in Hk. split; [exact Hk|].
    intros req Hb. rewrite authenticateAdmin_bearer, Hb, Hk. reflexivity.
  - intros w ev Hrev evs Hall.
    pose proof (step_revokes pw model v t w ev Hrev) as Hout.
    pose proof (run_does_not_issue pw model v t evs _ Hout Hall) as Hk.
    split; [now apply Set_has_false|].
    intros e req env He Hb.
    apply Set_has_false in Hk.
    destruct He as [-> | ->]; cbn [route]; unfold guarded;
      rewrite authenticateAdmin_bearer, Hb, Hk; reflexivity.
Qed.

Lemma token_valid_until_revoked_witness :
  JS.Set_has (uuid quiet)
    (adminSessions
       (run (H := strictCasters) (Some "secret") ServerJsModel ApiOnly
          (step (H := strictCasters) (Some "secret") ServerJsModel ApiOnly fresh
             (calling POST_admin_login (submitting [("password", JS.Str "secret")])))
          [calling GET_admin_donations (bearing ("Bearer " +:+ uuid quiet));
           calling POST_admin_logout (bearing "Bearer someone-else")])) = true
  /\ JS.Set_has (uuid quiet)
    (adminSessions
       (run (H := strictCasters) (Some "secret") ServerJsModel ApiOnly
          (step (H := strictCasters) (Some "secret") ServerJsModel ApiOnly
             {| adminSessions := {[ uuid quiet ]}; donations := [] |}
             (calling POST_admin_logout (bearing ("Bearer " +:+ uuid quiet))))
          [calling GET_admin_donations (bearing ("Bearer " +:+ uuid quiet));
           calling POST_admin_login (submitting [("password", JS.Str "wrong")])])) = false.
Proof.
  destruct (token_valid_until_revoked (H := strictCasters) (Some "secret") ServerJsModel
              ApiOnly (uuid quiet)) as [Hissue Hrevoke].
  split.
  - apply Hissue; [reflexivity|]. repeat constructor.
  - apply Hrevoke; [reflexivity|]. repeat constructor.
Defined.

(** ** The collection over time *)

(** C9.  Whatever requests reach the five routes, in whatever order, the
    collection after them is the collection before them with documents added
    at its end: a document that was stored is still there, at the same place
    and with the same content.  No route updates or deletes. *)
Theorem donations_append_only
  `{Casters} (pw : option string) (model : Schema) (v : Variant)
  (w : World) (evs : list Event) :
  (exists added, donations (run pw model v w evs) = donations w ++ added)
  /\ forall (i : nat) (d : Document),
      donations w !! i = Some d ->
      donations (run pw model v w evs) !! i = Some d.
Proof.
  destruct (run_appends pw model v evs w) as (added & Ha & _).
  split; [exists added; exact Ha|].
  intros i d Hd. rewrite Ha. now apply lookup_app_l_Some.
Qed.

(** ** Validation on save *)

Section Validation.
Context `{Casters}.

Lemma checkRequired_Unset (ty : SchemaType) : checkRequired ty Unset = false.
Proof. destruct ty; reflexivity. Qed.

(** A required path without default that the submission leaves out is
    invalid. *)
Lemma missing_path_invalid (now : Z) (path : string) (p : SchemaPath) :
  isRequired p = true ->
  defaultValue p = None ->
  pathInvalid (path, (p, applyDefault now p (cast (instance p) JS.Undefined))) = true.
Proof.
  intros Hr Hd. cbn [cast]. unfold applyDefault. rewrite Hd.
  cbn [pathInvalid]. now rewrite Hr, checkRequired_Unset.
Qed.

Lemma validate_reports_missing
  (schema : Schema) (get : string -> JS.Value) (now : Z) (path : string) :
  declaresRequired schema path ->
  get path = JS.Undefined ->
  In path (validate (Model_new schema get now)).
Proof.
  intros (p & Hin & Hr & Hd) Hget.
  unfold validate, Model_new.
  apply in_map_iff.
  exists (path, (p, applyDefault now p (cast (instance p) (get path)))).
  split; [reflexivity|].
  apply list_elem_of_In, list_elem_of_filter. split.
  - rewrite Hget. now apply missing_path_invalid.
  - apply list_elem_of_In, in_map_iff. exists (path, p). split; [reflexivity | exact Hin].
Qed.

Lemma save_rejects_invalid (doc : Doc) (up : bool) (stored : list Document) (path : string) :
  In path (validate doc) ->
  save doc up stored = Throw (ValidationError (validate doc)).
Proof.
  unfold save. destruct (validate doc); [intros [] | reflexivity].
Qed.

End Validation.

Lemma ServerJsModel_requires : Forall (declaresRequired ServerJsModel) requiredFields.
Proof.
  repeat constructor;
    (eexists; split; [cbn; repeat (try (left; reflexivity); right) | split; reflexivity]).
Qed.

(** C5.  Under a model that declares the nine fields required,
    [POST /api/donations] with a body that lacks at least one of them stores
    nothing and answers [500 "Error saving donation"]. *)
Theorem missing_field_rejected
  `{Casters} (pw : option string) (model : Schema) (v : Variant)
  (req : Request) (env : Env) (w : World) :
  Forall (declaresRequired model) requiredFields ->
  (exists f, In f requiredFields /\ prop (body req) f = JS.Undefined) ->
  route pw model v POST_donations req env w
  = (Json 500 (Message "Error saving donation"), w).
Proof.
  intros Hdecl (f & Hf & Hmiss).
  assert (Hreq : declaresRequired model f).
  { rewrite Forall_forall in Hdecl. apply Hdecl, list_elem_of_In, Hf. }
  cbn [route]. unfold postDonations.
  rewrite (save_rejects_invalid _ _ _ f); [reflexivity|].
  now apply validate_reports_missing.
Qed.

Lemma missing_field_rejected_witness :
  route (H := strictCasters) (Some "secret") ServerJsModel ServerJs POST_donations
        (submitting [("firstName", JS.Str "A"); ("lastName", JS.Str "B");
                     ("email", JS.Str "a@b.com"); ("address", JS.Str "X");
                     ("country", JS.Str "Y"); ("amount", JS.Num 10%float);
                     ("cardNumber", JS.Str "4111"); ("cardExpiry", JS.Str "12/30")])
        quiet fresh
  = (Json 500 (Message "Error saving donation"), fresh).
Proof.
  apply (missing_field_rejected (H := strictCasters)).
  - exact ServerJsModel_requires.
  - exists "cardCvc". split; [cbn; tauto | reflexivity].
Defined.

(** ** Listing: the sort *)

Lemma keyLe_total (a b : option Z) : keyLe a b = false -> keyLe b a = true.
Proof.
  destruct a as [x|], b as [y|]; cbn; try congruence.
  rewrite Z.leb_gt, Z.leb_le. lia.
Qed.

Lemma keyLe_trans (a b c : option Z) :
  keyLe a b = true -> keyLe b c = true -> keyLe a c = true.
Proof.
  destruct a as [x|], b as [y|], c as [z|]; cbn; try congruence.
  rewrite !Z.leb_le. lia.
Qed.

Lemma keyLe_antisym (a b : option Z) :
  keyLe a b = true -> keyLe b a = true -> a = b.
Proof.
  destruct a as [x|], b as [y|]; cbn; try congruence.
  rewrite !Z.leb_le. intros. f_equal. lia.
Qed.

Lemma insertDesc_Permutation (d : Document) (l : list Document) :
  insertDesc d l ≡ₚ d :: l.
Proof.
  induction l as [|x rest IH]; cbn [insertDesc]; [reflexivity|].
  destruct (keyLe (timestampOf x) (timestampOf d)); [reflexivity|].
  rewrite IH. apply perm_swap.
Qed.

Lemma insertDesc_HdRel (x d : Document) (l : list Document) :
  newerOrEqual x d ->
  HdRel newerOrEqual x l ->
  HdRel newerOrEqual x (insertDesc d l).
Proof.
  intros Hxd Hl. destruct l as [|y rest]; cbn [insertDesc].
  - now constructor.
  - destruct (keyLe (timestampOf y) (timestampOf d)); constructor;
      [exact Hxd | now inversion Hl].
Qed.

Lemma insertDesc_Sorted (d : Document) (l : list Document) :
  Sorted newerOrEqual l -> Sorted newerOrEqual (insertDesc d l).
Proof.
  induction 1 as [|x rest Hs IH Hhd]; cbn [insertDesc].
  - repeat constructor.
  - destruct (keyLe (timestampOf x) (timestampOf d)) eqn:Hk.
    + constructor; [now constructor | constructor; exact Hk].
    + constructor; [exact IH|].
      apply insertDesc_HdRel; [|exact Hhd].
      now apply keyLe_total.
Qed.

Lemma sortDesc_Permutation (l : list Document) : sortDesc l ≡ₚ l.
Proof.
  induction l as [|d rest IH]; [reflexivity|].
  cbn [sortDesc foldr]. fold (sortDesc rest).
  now rewrite insertDesc_Permutation, IH.
Qed.

Lemma sortDesc_Sorted (l : list Document) : Sorted newerOrEqual (sortDesc l).
Proof.
  induction l as [|d rest IH]; [constructor|].
  cbn [sortDesc foldr]. now apply insertDesc_Sorted.
Qed.

Lemma newerOrEqual_trans (a b c : Document) :
  newerOrEqual a b -> newerOrEqual b c -> newerOrEqual a c.
Proof. unfold newerOrEqual. intros Hab Hbc. now apply keyLe_trans with (timestampOf b). Qed.

Lemma sortDesc_StronglySorted (l : list Document) :
  StronglySorted newerOrEqual (sortDesc l).
Proof.
  apply Sorted.Sorted_StronglySorted; [|apply sortDesc_Sorted].
  intros a b c. apply newerOrEqual_trans.
Qed.

(** The sequence of timestamps that comes out depends on which documents are
    stored, not on the order they were stored in. *)
Lemma sortDesc_order_independent (l1 l2 : list Document) :
  l1 ≡ₚ l2 ->
  map timestampOf (sortDesc l1) = map timestampOf (sortDesc l2).
Proof.
  intros Hp.
  apply (StronglySorted_unique_strong (fun a b : option Z => keyLe b a = true)).
  - intros a b _ _ Hab Hba. now apply keyLe_antisym.
  - apply (StronglySorted_fmap timestampOf newerOrEqual); [auto|].
    apply sortDesc_StronglySorted.
  - apply (StronglySorted_fmap timestampOf newerOrEqual); [auto|].
    apply sortDesc_StronglySorted.
  - apply Permutation_map. now rewrite !sortDesc_Permutation.
Qed.

Lemma timestampOf_Some (d : Document) (ms : Z) :
  timestampOf d = Some ms <-> field "timestamp" d = Some (SDate ms).
Proof.
  unfold timestampOf.
  destruct (field "timestamp" d) as [[| | |]|]; split; congruence.
Qed.

(** The order the sort works with is the order read off the documents. *)
Lemma newerOrEqual_dated (a b : Document) :
  newerOrEqual a b -> datedNoEarlier a b.
Proof.
  unfold newerOrEqual, datedNoEarlier. intros Hk ms_b Hb.
  apply timestampOf_Some in Hb. rewrite Hb in Hk.
  destruct (timestampOf a) as [ms_a|] eqn:Ha; [|discriminate].
  exists ms_a. split; [now apply timestampOf_Some | now apply Z.leb_le].
Qed.

Lemma StronglySorted_weaken {A : Type} (R1 R2 : A -> A -> Prop) (l : list A) :
  (forall a b, R1 a b -> R2 a b) ->
  StronglySorted R1 l -> StronglySorted R2 l.
Proof.
  intros Hsub. induction 1 as [|x rest _ IH Hx]; constructor; [exact IH|].
  eapply Forall_impl; [exact Hx | apply Hsub].
Qed.

Lemma sortDesc_dated (l : list Document) :
  StronglySorted datedNoEarlier (sortDesc l).
Proof.
  apply (StronglySorted_weaken newerOrEqual); [apply newerOrEqual_dated|].
  apply sortDesc_StronglySorted.
Qed.

Lemma same_keys_sameDate (l1 l2 : list Document) :
  map timestampOf l1 = map timestampOf l2 -> Forall2 sameDate l1 l2.
Proof.
  revert l2. induction l1 as [|a l1 IH]; intros [|b l2] Hm; try discriminate Hm.
  - constructor.
  - cbn [map] in Hm. injection Hm as Hab Hrest. constructor; [|now apply IH].
    intros ms. rewrite <- !timestampOf_Some, Hab. tauto.
Qed.

(** C6.  A listing that passes the gate and reaches the store answers
    [200 { donations }] where [donations] holds every stored document, each
    once and nothing else (as many as are stored: no page, no limit), newest
    first: whenever a document of the listing holds a date, every document
    before it holds a date that is not earlier.  This is so whatever order
    the documents were stored in, and the dates come out in the same sequence
    for every such order. *)
Theorem listing_complete_newest_first
  `{Casters} (pw : option string) (model : Schema) (v : Variant)
  (req : Request) (env : Env) (w : World) (t : string) :
  bearerToken (authorization req) = Some t ->
  t ∈ adminSessions w ->
  storeUp env = true ->
  exists found,
    route pw model v GET_admin_donations req env w = (Json 200 (Donations found), w)
    /\ found ≡ₚ donations w
    /\ length found = length (donations w)
    /\ StronglySorted datedNoEarlier found
    /\ forall stored',
        stored' ≡ₚ donations w ->
        exists found',
          route pw model v GET_admin_donations req env
                {| adminSessions := adminSessions w; donations := stored' |}
          = (Json 200 (Donations found'),
             {| adminSessions := adminSessions w; donations := stored' |})
          /\ found' ≡ₚ stored'
          /\ StronglySorted datedNoEarlier found'
          /\ Forall2 sameDate found' found.
Proof.
  intros Hb Hin Hup. apply Set_has_true in Hin.
  exists (sortDesc (donations w)). repeat split.
  - cbn [route]. unfold guarded.
    rewrite authenticateAdmin_bearer, Hb, Hin.
    unfold listDonations, findSorted. now rewrite Hup.
  - apply sortDesc_Permutation.
  - apply Permutation_length, sortDesc_Permutation.
  - apply sortDesc_dated.
  - intros stored' Hp. exists (sortDesc stored'). repeat split.
    + cbn [route]. unfold guarded.
      rewrite authenticateAdmin_bearer, Hb. cbn [adminSessions]. rewrite Hin.
      unfold listDonations, findSorted. now rewrite Hup.
    + apply sortDesc_Permutation.
    + apply sortDesc_dated.
    + now apply same_keys_sameDate, sortDesc_order_independent.
Qed.

Lemma listing_complete_newest_first_witness :
  exists found,
    route (H := strictCasters) (Some "secret") ServerJsModel ApiOnly GET_admin_donations
          (bearing "Bearer tok") quiet
          {| adminSessions := {[ "tok" ]};
             donations := [donationAt 20 "second"; donationAt 30 "third"; donationAt 10 "first"] |}
    = (Json 200 (Donations found),
       {| adminSessions := {[ "tok" ]};
          donations := [donationAt 20 "second"; donationAt 30 "third"; donationAt 10 "first"] |})
    /\ found = [donationAt 30 "third"; donationAt 20 "second"; donationAt 10 "first"]
    /\ StronglySorted datedNoEarlier found.
Proof.
  destruct (listing_complete_newest_first (H := strictCasters) (Some "secret") ServerJsModel
              ApiOnly (bearing "Bearer tok") quiet
              {| adminSessions := {[ "tok" ]};
                 donations := [donationAt 20 "second"; donationAt 30 "third"; donationAt 10 "first"] |}
              "tok" eq_refl ltac:(cbn; set_solver) eq_refl)
    as (found & Hr & _ & _ & Hs & _).
  exists found. split; [exact Hr|]. split; [|exact Hs].
  assert (Hc : route (H := strictCasters) (Some "secret") ServerJsModel ApiOnly
                     GET_admin_donations (bearing "Bearer tok") quiet
                     {| adminSessions := {[ "tok" ]};
                        donations := [donationAt 20 "second"; donationAt 30 "third";
                                      donationAt 10 "first"] |}
               = (Json 200 (Donations [donationAt 30 "third"; donationAt 20 "second";
                                       donationAt 10 "first"]),
                  {| adminSessions := {[ "tok" ]};
                     donations := [donationAt 20 "second"; donationAt 30 "third";
                                   donationAt 10 "first"] |}))
    by reflexivity.
  rewrite Hr in Hc. now injection Hc.
Defined.

(** ** The model on concrete inputs *)

Example trim_both_ends : JS.trim "  ab c  " = "ab c".
Proof. reflexivity. Qed.

Example replace_first_only :
  JS.replace "xBearer Bearer y" "Bearer " "" = "xBearer y".
Proof. reflexivity. Qed.

Example gate_trims_token :
  authenticateAdmin (bearing "Bearer   tok  ")
                    {| adminSessions := {[ "tok" ]}; donations := [] |}
  = CalledNext {| authorization := Some "Bearer   tok  ";
                  body := BodyObject [];
                  adminToken := Some "tok" |}.
Proof. rewrite authenticateAdmin_bearer. reflexivity. Qed.

Example lowercase_scheme_is_missing :
  authenticateAdmin (bearing "bearer tok")
                    {| adminSessions := {[ "tok" ]}; donations := [] |}
  = Responded (Json 401 (Message "Authorization token missing")).
Proof. reflexivity. Qed.

(** The scenario of the specification: a full submission is stored with the
    submission time and the listing returns it with its amount. *)
Example scenario_submit_then_list :
  route (H := strictCasters) (Some "secret") ServerJsModel ServerJs POST_donations
        (submitting scenarioFields) quiet fresh
  = (Json 201 (Message "Donation received"),
     {| adminSessions := ∅;
        donations := [ ("timestamp", SDate (now quiet)) :: tail (donationAt 0 "A") ] |})
  /\ field "amount" (("timestamp", SDate (now quiet)) :: tail (donationAt 0 "A"))
     = Some (SNumber 10%float).
Proof. split; reflexivity. Qed.

Example listing_out_of_order :
  sortDesc [donationAt 20 "second"; donationAt 30 "third"; donationAt 10 "first"]
  = [donationAt 30 "third"; donationAt 20 "second"; donationAt 10 "first"].
Proof. reflexivity. Qed.

Example empty_string_field_is_rejected :
  route (H := strictCasters) (Some "secret") ServerJsModel ServerJs POST_donations
        (submitting (("firstName", JS.Str "") :: scenarioFields)) quiet fresh
  = (Json 500 (Message "Error saving donation"), fresh).
Proof. reflexivity. Qed.

(** ** What a successful save stores *)

Section Stored.
Context `{Casters}.

Lemma Model_new_paths (schema : Schema) (get : string -> JS.Value) (now : Z) :
  map fst (Model_new schema get now) = map fst schema.
Proof.
  unfold Model_new. induction schema as [|[path p] rest IH]; [reflexivity|].
  cbn [map fst]. now rewrite IH.
Qed.

(** A path that holds a value is stored under its own name. *)
Lemma toObject_field (doc : Doc) (path : string) (p : SchemaPath) (x : Mongoose.Stored) :
  NoDup (map fst doc) ->
  In (path, (p, Assigned x)) doc ->
  field path (toObject doc) = Some x.
Proof.
  induction doc as [|[k [q st]] rest IH]; intros Hnd Hin; [destruct Hin|].
  cbn [map fst] in Hnd. apply NoDup_cons in Hnd as [Hk Hnd].
  destruct Hin as [Heq | Hin].
  - injection Heq as -> -> ->. cbn [toObject field]. now rewrite String.eqb_refl.
  - assert (Hne : path <> k).
    { intros ->. apply Hk, list_elem_of_In, in_map_iff.
      exists (k, (p, Assigned x)). split; [reflexivity | exact Hin]. }
    apply String.eqb_neq in Hne.
    destruct st; cbn [toObject field]; rewrite ?Hne; now apply IH.
Qed.

(** Under a [String] path a submitted string is kept as it is. *)
Lemma string_path_keeps_string
  (schema : Schema) (get : string -> JS.Value) (now : Z)
  (path : string) (p : SchemaPath) (s : string) :
  NoDup (map fst schema) ->
  In (path, p) schema ->
  instance p = SchemaString ->
  get path = JS.Str s ->
  field path (toObject (Model_new schema get now)) = Some (SString s).
Proof.
  intros Hnd Hin Hty Hget.
  apply toObject_field with p.
  - now rewrite Model_new_paths.
  - unfold Model_new. apply in_map_iff. exists (path, p). split; [|exact Hin].
    now rewrite Hty, Hget.
Qed.

(** With the schema of [server.js], a submission that is accepted is stored
    as one new document whose [cardNumber], [cardExpiry] and [cardCvc] are
    the submitted strings, character for character. *)
Lemma serverjs_stores_card_fields_as_submitted
  (pw : option string) (v : Variant) (req : Request) (env : Env) (w w' : World)
  (number expiry cvc : string) :
  prop (body req) "cardNumber" = JS.Str number ->
  prop (body req) "cardExpiry" = JS.Str expiry ->
  prop (body req) "cardCvc" = JS.Str cvc ->
  route pw ServerJsModel v POST_donations req env w
  = (Json 201 (Message "Donation received"), w') ->
  exists d,
    donations w' = donations w ++ [d]
    /\ field "cardNumber" d = Some (SString number)
    /\ field "cardExpiry" d = Some (SString expiry)
    /\ field "cardCvc" d = Some (SString cvc).
Proof.
  intros Hn He Hc. cbn [route]. unfold postDonations.
  remember (Model_new ServerJsModel (prop (body req)) (now env)) as doc eqn:Hdoc.
  unfold save. destruct (validate doc); [destruct (storeUp env)|]; try discriminate.
  intros Heq. injection Heq as <-. cbn [donations].
  exists (toObject doc). split; [reflexivity|].
  assert (Hnd : NoDup (map fst ServerJsModel)).
  { apply (bool_decide_unpack _). reflexivity. }
  rewrite Hdoc.
  repeat split;
    (eapply string_path_keeps_string;
     [exact Hnd | cbn; repeat (try (left; reflexivity); right) | reflexivity | eassumption]).
Qed.

End Stored.

(** * Further properties of the routes *)

(** ** The token the gate extracts *)






Lemma trimStart_all_white (s : string) :
  allWhiteSpace s = true -> JS.trimStart s = "".
Proof.
  induction s as [|c rest IH]; [reflexivity|].
  cbn [allWhiteSpace JS.trimStart]. intros Hs. apply andb_true_iff in Hs as [Hc Hr].
  rewrite Hc. now apply IH.
Qed.

Lemma trimEnd_all_white (s : string) :
  allWhiteSpace s = true -> JS.trimEnd s = "".
Proof.
  induction s as [|c rest IH]; [reflexivity|].
  cbn [allWhiteSpace JS.trimEnd]. intros Hs. apply andb_true_iff in Hs as [Hc Hr].
  rewrite (IH Hr). now rewrite Hc.
Qed.

Lemma trimStart_padded_left (pad s : string) :
  allWhiteSpace pad = true -> JS.trimStart (pad +:+ s) = JS.trimStart s.
Proof.
  induction pad as [|c rest IH]; [reflexivity|].
  cbn [allWhiteSpace]. intros Hp. apply andb_true_iff in Hp as [Hc Hr].
  change (String c rest +:+ s) with (String c (rest +:+ s)).
  cbn [JS.trimStart]. rewrite Hc. now apply IH.
Qed.

Lemma trimEnd_padded_right (s pad : string) :
  allWhiteSpace pad = true -> JS.trimEnd (s +:+ pad) = JS.trimEnd s.
Proof.
  intros Hp. induction s as [|c rest IH].
  - now apply trimEnd_all_white.
  - change (String c rest +:+ pad) with (String c (rest +:+ pad)).
    cbn [JS.trimEnd]. now rewrite IH.
Qed.

Lemma trimStart_padded_right (s pad : string) :
  allWhiteSpace pad = true ->
  JS.trimStart (s +:+ pad) = "" /\ JS.trimStart s = ""
  \/ JS.trimStart (s +:+ pad) = JS.trimStart s +:+ pad.
Proof.
  intros Hp. induction s as [|c rest IH].
  - left. split; [now apply trimStart_all_white | reflexivity].
  - change (String c rest +:+ pad) with (String c (rest +:+ pad)).
    cbn [JS.trimStart].
    destruct (JS.isWhiteSpace c); [exact IH | now right].
Qed.

(** White space around a string does not change what [trim] returns. *)
Lemma trim_padded (left_pad s right_pad : string) :
  allWhiteSpace left_pad = true ->
  allWhiteSpace right_pad = true ->
  JS.trim (left_pad +:+ s +:+ right_pad) = JS.trim s.
Proof.
  intros Hl Hr. unfold JS.trim.
  rewrite (trimStart_padded_left _ _ Hl).
  destruct (trimStart_padded_right s right_pad Hr) as [[-> ->] | ->]; [reflexivity|].
  now apply trimEnd_padded_right.
Qed.

Lemma startsWith_Bearer (rest : string) :
  JS.startsWith ("Bearer " +:+ rest) "Bearer " = true.
Proof. unfold JS.startsWith. cbn. now destruct rest. Qed.

Lemma bearerToken_of_header (rest : string) :
  bearerToken (Some ("Bearer " +:+ rest)) = Some (JS.trim rest).
Proof.
  rewrite (bearerToken_wellformed _ (startsWith_Bearer rest)).
  rewrite (replace_at_start _ _ (startsWith_Bearer rest)).
  change (JS.skip (String.length "Bearer ") ("Bearer " +:+ rest)) with (JS.skip 0 rest).
  now rewrite skip_0.
Qed.



(** X2.  White space between [Bearer ] and the token, and after the token,
    makes no difference: on both gated routes a request with such a header is
    answered, and changes the state, exactly as the same request with the
    bare header. *)
Theorem gated_routes_ignore_white_space_around_token
  `{Casters} (pw : option string) (model : Schema) (v : Variant) (e : Endpoint)
  (left_pad token right_pad : string) (b : Body) (a : option string)
  (env : Env) (w : World) :
  e = POST_admin_logout \/ e = GET_admin_donations ->
  allWhiteSpace left_pad = true ->
  allWhiteSpace right_pad = true ->
  route pw model v e
        {| authorization := Some ("Bearer " +:+ left_pad +:+ token +:+ right_pad);
           body := b; adminToken := a |} env w
  = route pw model v e
        {| authorization := Some ("Bearer " +:+ token); body := b; adminToken := a |} env w.
Proof.
  intros He Hl Hr.
  destruct He as [-> | ->]; cbn [route]; unfold guarded;
    rewrite !authenticateAdmin_bearer; cbn [authorization body];
    rewrite !bearerToken_of_header, (trim_padded _ _ _ Hl Hr);
    destruct (JS.Set_has (JS.trim token) (adminSessions w)); reflexivity.
Qed.

Lemma gated_routes_ignore_white_space_around_token_witness :
  route (H := strictCasters) None ServerJsModel ApiOnly POST_admin_logout
        (bearing ("Bearer " +:+ "  " +:+ "tok" +:+ " ")) quiet
        {| adminSessions := {[ "tok" ]}; donations := [] |}
  = route (H := strictCasters) None ServerJsModel ApiOnly POST_admin_logout
        (bearing ("Bearer " +:+ "tok")) quiet
        {| adminSessions := {[ "tok" ]}; donations := [] |}.
Proof.
  apply (gated_routes_ignore_white_space_around_token (H := strictCasters)
           None ServerJsModel ApiOnly POST_admin_logout "  " "tok" " ");
    [left; reflexivity | reflexivity | reflexivity].
Defined.

(** X3.  Login, then use the token.  If the token a successful login returns
    has no white space at its ends (a UUID has none), a listing that sends it
    as [Bearer <token>] right after is let through: with the store reachable
    it answers [200] with all the stored documents, newest first. *)
Theorem login_token_opens_the_listing
  `{Casters} (pw : option string) (model : Schema) (v : Variant)
  (req : Request) (env : Env) (w : World)
  (b : Body) (a : option string) (env2 : Env) :
  prop (body req) "password" = envValue pw ->
  JS.trim (uuid env) = uuid env ->
  storeUp env2 = true ->
  route pw model v POST_admin_login req env w
  = (Json 200 (Token (uuid env)), step pw model v w (Build_Event POST_admin_login req env))
  /\ exists found,
      route pw model v GET_admin_donations
            {| authorization := Some ("Bearer " +:+ uuid env); body := b; adminToken := a |}
            env2 (step pw model v w (Build_Event POST_admin_login req env))
      = (Json 200 (Donations found),
         step pw model v w (Build_Event POST_admin_login req env))
      /\ found ≡ₚ donations w
      /\ StronglySorted datedNoEarlier found.
Proof.
  intros Hp Ht Hup. unfold step. cbn [endpoint request App.env route].
  rewrite (postLogin_accepts pw req env w Hp). split; [reflexivity|].
  exists (sortDesc (donations w)). split; [|split].
  - cbn [snd]. unfold guarded.
    rewrite authenticateAdmin_bearer. cbn [authorization body adminSessions].
    rewrite bearerToken_of_header, Ht.
    assert (Hin : JS.Set_has (uuid env) ({[ uuid env ]} ∪ adminSessions w) = true)
      by (apply Set_has_true; set_solver).
    rewrite Hin. unfold listDonations, findSorted. now rewrite Hup.
  - apply sortDesc_Permutation.
  - apply sortDesc_dated.
Qed.

Lemma login_token_opens_the_listing_witness :
  exists found,
    route (H := strictCasters) (Some "secret") ServerJsModel ApiOnly GET_admin_donations
          {| authorization := Some ("Bearer " +:+ uuid quiet); body := BodyObject [];
             adminToken := None |}
          quiet
          (step (H := strictCasters) (Some "secret") ServerJsModel ApiOnly
                {| adminSessions := ∅;
                   donations := [donationAt 10 "first"; donationAt 20 "second"] |}
                (Build_Event POST_admin_login (submitting [("password", JS.Str "secret")]) quiet))
    = (Json 200 (Donations found),
       step (H := strictCasters) (Some "secret") ServerJsModel ApiOnly
            {| adminSessions := ∅;
               donations := [donationAt 10 "first"; donationAt 20 "second"] |}
            (Build_Event POST_admin_login (submitting [("password", JS.Str "secret")]) quiet))
    /\ found = [donationAt 20 "second"; donationAt 10 "first"].
Proof.
  destruct (login_token_opens_the_listing (H := strictCasters) (Some "secret") ServerJsModel
              ApiOnly (submitting [("password", JS.Str "secret")]) quiet
              {| adminSessions := ∅;
                 donations := [donationAt 10 "first"; donationAt 20 "second"] |}
              (BodyObject []) None quiet eq_refl eq_refl eq_refl)
    as (_ & found & Hr & _ & _).
  exists found. split; [exact Hr|].
  assert (Hc : route (H := strictCasters) (Some "secret") ServerJsModel ApiOnly
                     GET_admin_donations
                     {| authorization := Some ("Bearer " +:+ uuid quiet); body := BodyObject [];
                        adminToken := None |}
                     quiet
                     (step (H := strictCasters) (Some "secret") ServerJsModel ApiOnly
                           {| adminSessions := ∅;
                              donations := [donationAt 10 "first"; donationAt 20 "second"] |}
                           (Build_Event POST_admin_login
                                        (submitting [("password", JS.Str "secret")]) quiet))
               = (Json 200 (Donations [donationAt 20 "second"; donationAt 10 "first"]),
                  step (H := strictCasters) (Some "secret") ServerJsModel ApiOnly
                       {| adminSessions := ∅;
                          donations := [donationAt 10 "first"; donationAt 20 "second"] |}
                       (Build_Event POST_admin_login
                                    (submitting [("password", JS.Str "secret")]) quiet)))
    by reflexivity.
  rewrite Hr in Hc. now injection Hc.
Defined.

(** ** Logout and listing through the gate *)

(** X4.  A logout that passes the gate answers [200 "Logged out
    successfully"] and removes the caller's token and nothing else: every
    other token is in the session set afterwards exactly if it was before,
    and the collection is untouched.  It makes no store call, so it cannot
    answer [500]. *)
Theorem logout_ends_only_the_callers_session
  `{Casters} (pw : option string) (model : Schema) (v : Variant)
  (req : Request) (env : Env) (w : World) (t : string) :
  bearerToken (authorization req) = Some t ->
  t ∈ adminSessions w ->
  exists w',
    route pw model v POST_admin_logout req env w
    = (Json 200 (Message "Logged out successfully"), w')
    /\ adminSessions w' = adminSessions w ∖ {[ t ]}
    /\ donations w' = donations w
    /\ forall t', t' <> t -> (t' ∈ adminSessions w' <-> t' ∈ adminSessions w).
Proof.
  intros Hb Hin. apply Set_has_true in Hin.
  eexists. split; [|split; [|split]].
  - cbn [route]. unfold guarded. rewrite authenticateAdmin_bearer, Hb, Hin.
    unfold logout. cbn [adminToken]. reflexivity.
  - reflexivity.
  - reflexivity.
  - intros t' Hne. cbn. set_solver.
Qed.

Lemma logout_ends_only_the_callers_session_witness :
  exists w',
    route (H := strictCasters) None ServerJsModel ApiOnly POST_admin_logout
          (bearing "Bearer a") quiet {| adminSessions := {[ "a"; "b" ]}; donations := [] |}
    = (Json 200 (Message "Logged out successfully"), w')
    /\ ("b" ∈ adminSessions w' <-> "b" ∈ ({[ "a"; "b" ]} : gset string)).
Proof.
  destruct (logout_ends_only_the_callers_session (H := strictCasters) None ServerJsModel
              ApiOnly (bearing "Bearer a") quiet
              {| adminSessions := {[ "a"; "b" ]}; donations := [] |} "a"
              eq_refl ltac:(cbn; set_solver))
    as (w' & Hr & _ & _ & Hother).
  exists w'. split; [exact Hr|]. apply Hother. discriminate.
Defined.

(** X5.  The listing never writes: whatever the request, the state after it
    is the state before it.  When it passes the gate and the store call
    fails, the answer is [500 "Error fetching records"]. *)
Theorem listing_is_read_only
  `{Casters} (pw : option string) (model : Schema) (v : Variant)
  (req : Request) (env : Env) (w : World) :
  snd (route pw model v GET_admin_donations req env w) = w
  /\ forall t,
      bearerToken (authorization req) = Some t ->
      t ∈ adminSessions w ->
      storeUp env = false ->
      fst (route pw model v GET_admin_donations req env w)
      = Json 500 (Message "Error fetching records").
Proof.
  split.
  - cbn [route].
    destruct (guarded_gate_cases listDonations req env w)
      as [[-> _] | [(t' & _ & _ & ->) | (t' & _ & _ & ->)]]; try reflexivity.
    apply listDonations_state.
  - intros t Hb Hin Hdown. apply Set_has_true in Hin.
    cbn [route]. unfold guarded. rewrite authenticateAdmin_bearer, Hb, Hin.
    unfold listDonations, findSorted. now rewrite Hdown.
Qed.

Lemma listing_is_read_only_witness :
  fst (route (H := strictCasters) None ServerJsModel ApiOnly GET_admin_donations
             (bearing "Bearer a")
             {| uuid := "u"; now := 0; storeUp := false |}
             {| adminSessions := {[ "a" ]}; donations := [] |})
  = Json 500 (Message "Error fetching records").
Proof.
  apply (listing_is_read_only (H := strictCasters) None ServerJsModel ApiOnly
           (bearing "Bearer a") {| uuid := "u"; now := 0; storeUp := false |}
           {| adminSessions := {[ "a" ]}; donations := [] |}) with "a";
    [reflexivity | cbn; set_solver | reflexivity].
Defined.

(** ** Submissions *)

Section Submissions.
Context `{Casters}.

Lemma validate_nil (doc : Doc) :
  validate doc = [] -> forall entry, In entry doc -> pathInvalid entry = false.
Proof.
  unfold validate. intros Hv entry Hin.
  apply map_eq_nil in Hv.
  destruct (pathInvalid entry) eqn:Hp; [|reflexivity].
  exfalso. apply (filter_nil_not_elem_of _ _ entry Hv Hp).
  now apply list_elem_of_In.
Qed.

Lemma validate_all_valid (doc : Doc) :
  Forall (fun entry => pathInvalid entry = false) doc -> validate doc = [].
Proof.
  unfold validate. induction 1 as [|entry rest Hentry _ IH]; [reflexivity|].
  unfold Doc. rewrite filter_cons. destruct (decide (pathInvalid entry = true)); [congruence | exact IH].
Qed.

(** A path that passed its [required] validator holds a value, and that value
    is what the stored object has under the path. *)
Lemma valid_required_path_is_stored
  (doc : Doc) (path : string) (p : SchemaPath) (st : PathState) :
  NoDup (map fst doc) ->
  In (path, (p, st)) doc ->
  isRequired p = true ->
  pathInvalid (path, (p, st)) = false ->
  exists x, field path (toObject doc) = Some x
            /\ checkRequired (instance p) (Assigned x) = true.
Proof.
  intros Hnd Hin Hr Hv. cbn [pathInvalid] in Hv. rewrite Hr in Hv.
  destruct st as [|x|]; cbn in Hv.
  - now rewrite checkRequired_Unset in Hv.
  - exists x. split.
    + now apply toObject_field with p.
    + now destruct (checkRequired (instance p) (Assigned x)).
  - discriminate.
Qed.

Lemma saved_document_meets_required
  (model : Schema) (get : string -> JS.Value) (now : Z) :
  NoDup (map fst model) ->
  validate (Model_new model get now) = [] ->
  meetsRequired model (toObject (Model_new model get now)) = true.
Proof.
  intros Hnd Hv. unfold meetsRequired. apply forallb_forall.
  intros [path p] Hin. cbn [fst snd].
  destruct (isRequired p) eqn:Hr; [cbn [negb orb] | reflexivity].
  set (st := applyDefault now p (cast (instance p) (get path))).
  assert (Hdoc : In (path, (p, st)) (Model_new model get now)).
  { unfold Model_new. apply in_map_iff. exists (path, p). split; [reflexivity | exact Hin]. }
  destruct (valid_required_path_is_stored (Model_new model get now) path p st)
    as (x & -> & Hx).
  - now rewrite Model_new_paths.
  - exact Hdoc.
  - exact Hr.
  - now apply (validate_nil _ Hv).
  - exact Hx.
Qed.

(** What [POST /api/donations] does, in terms of validation and the store. *)
Lemma postDonations_cases (model : Schema) (req : Request) (env : Env) (w : World) :
  let doc := Model_new model (prop (body req)) (now env) in
  (validate doc = [] /\ storeUp env = true
   /\ postDonations model req env w
      = (Json 201 (Message "Donation received"),
         {| adminSessions := adminSessions w;
            donations := donations w ++ [toObject doc] |}))
  \/ ((validate doc <> [] \/ storeUp env = false)
      /\ postDonations model req env w
         = (Json 500 (Message "Error saving donation"), w)).
Proof.
  cbn zeta. unfold postDonations, save.
  destruct (validate _) eqn:Hv; [destruct (storeUp env) eqn:Hup|].
  - left. repeat split; reflexivity.
  - right. split; [now right | reflexivity].
  - right. split; [now left | reflexivity].
Qed.

End Submissions.

Lemma ServerJsModel_paths_distinct : NoDup (map fst ServerJsModel).
Proof. apply (bool_decide_unpack _). reflexivity. Qed.

Lemma checkRequired_text (x : Mongoose.Stored) :
  checkRequired SchemaString (Assigned x) = true ->
  exists s, x = SString s /\ s <> "".
Proof.
  destruct x as [|s| |]; cbn; try discriminate.
  intros Hs. exists s. split; [reflexivity|].
  apply negb_true_iff, String.eqb_neq in Hs. exact Hs.
Qed.

(** What [meetsRequired] says under the model of [server.js]. *)
Lemma meetsRequired_ServerJs (d : Document) :
  meetsRequired ServerJsModel d = true ->
  (forall f, In f requiredFields -> f <> "amount" -> holdsText f d)
  /\ exists n, field "amount" d = Some (SNumber n).
Proof.
  unfold meetsRequired. rewrite forallb_forall. intros Hall. split.
  - intros f Hf Hne.
    assert (Hin : In (f, {| instance := SchemaString; isRequired := true;
                            defaultValue := None |}) ServerJsModel).
    { cbn in Hf. cbn.
      repeat (destruct Hf as [<- | Hf]; [try congruence; tauto|]). destruct Hf. }
    specialize (Hall _ Hin). cbn [fst snd isRequired instance negb orb] in Hall.
    unfold holdsText. destruct (field f d) as [x|]; [|discriminate].
    destruct (checkRequired_text x Hall) as (s & -> & Hs). now exists s.
  - assert (Hin : In ("amount", {| instance := SchemaNumber; isRequired := true;
                                  defaultValue := None |}) ServerJsModel)
      by (cbn; tauto).
    specialize (Hall _ Hin). cbn [fst snd isRequired instance negb orb] in Hall.
    destruct (field "amount" d) as [[|s|n|ms]|]; try discriminate.
    now exists n.
Qed.

Lemma step_keeps_meetsRequired
  `{Casters} (pw : option string) (model : Schema) (v : Variant) (w : World) (ev : Event) :
  NoDup (map fst model) ->
  Forall (fun d => meetsRequired model d = true) (donations w) ->
  Forall (fun d => meetsRequired model d = true) (donations (step pw model v w ev)).
Proof.
  intros Hnd Hall. unfold step. destruct (endpoint ev) eqn:He; cbn [route].
  - now rewrite getRoot_state.
  - destruct (postDonations_cases model (request ev) (env ev) w)
      as [(Hv & _ & ->) | (_ & ->)]; [|exact Hall].
    cbn [snd donations]. apply Forall_app. split; [exact Hall|].
    constructor; [|constructor]. now apply saved_document_meets_required.
  - unfold postLogin. destruct (negb _); exact Hall.
  - destruct (guarded_gate_cases logout (request ev) (env ev) w)
      as [[-> _] | [(t' & _ & _ & ->) | (t' & _ & _ & ->)]]; exact Hall.
  - destruct (guarded_gate_cases listDonations (request ev) (env ev) w)
      as [[-> _] | [(t' & _ & _ & ->) | (t' & _ & _ & ->)]]; try exact Hall.
    now rewrite listDonations_state.
Qed.

(** X7.  No partial records.  Under the schema of [server.js], start from a
    collection whose documents all carry the required fields; then after any
    sequence of requests every stored document has a non-empty string under
    each of [firstName], [lastName], [email], [address], [country],
    [cardNumber], [cardExpiry], [cardCvc] and a number under [amount]. *)
Theorem stored_records_are_complete
  `{Casters} (pw : option string) (v : Variant) (w : World) (evs : list Event) :
  Forall (fun d => meetsRequired ServerJsModel d = true) (donations w) ->
  Forall (fun d =>
            (forall f, In f requiredFields -> f <> "amount" -> holdsText f d)
            /\ exists n, field "amount" d = Some (SNumber n))
         (donations (run pw ServerJsModel v w evs)).
Proof.
  intros Hall.
  assert (Hinv : Forall (fun d => meetsRequired ServerJsModel d = true)
                        (donations (run pw ServerJsModel v w evs))).
  { revert w Hall. induction evs as [|ev evs IH]; intros w Hall; [exact Hall|].
    cbn [run fold_left]. apply IH.
    apply step_keeps_meetsRequired; [apply ServerJsModel_paths_distinct | exact Hall]. }
  eapply Forall_impl; [exact Hinv|]. intros d Hd. now apply meetsRequired_ServerJs.
Qed.

Lemma stored_records_are_complete_witness :
  Forall (fun d =>
            (forall f, In f requiredFields -> f <> "amount" -> holdsText f d)
            /\ exists n, field "amount" d = Some (SNumber n))
         (donations
            (run (H := strictCasters) None ServerJsModel ServerJs fresh
                 [calling POST_donations (submitting scenarioFields);
                  calling POST_donations (submitting [("firstName", JS.Str "only")])])).
Proof.
  apply (stored_records_are_complete (H := strictCasters) None ServerJs fresh).
  constructor.
Defined.

Lemma text_path_valid
  `{Casters} (now : Z) (path : string) (v : JS.Value) (s : string) :
  v = JS.Str s -> s <> "" ->
  pathInvalid (path, ({| instance := SchemaString; isRequired := true; defaultValue := None |},
                      applyDefault now {| instance := SchemaString; isRequired := true;
                                          defaultValue := None |}
                                   (cast SchemaString v))) = false.
Proof.
  intros -> Hs. apply String.eqb_neq in Hs. cbn. now rewrite Hs.
Qed.

(** X8.  An accepted submission is stored and then listed.  Under the schema
    of [server.js], whenever [POST /api/donations] answers [201 "Donation
    received"]: exactly one document was added at the end of the collection
    and the session set is as it was; every text field that was submitted as
    a string is stored unchanged; the stored amount is what the number caster
    made of the submitted one; and after any further requests, every listing
    that passes the gate and reaches the store contains that document. *)
Theorem accepted_submission_is_stored_and_listed
  `{Casters} (pw : option string) (v : Variant)
  (req : Request) (env : Env) (w w' : World) :
  route pw ServerJsModel v POST_donations req env w
  = (Json 201 (Message "Donation received"), w') ->
  exists d,
    w' = {| adminSessions := adminSessions w; donations := donations w ++ [d] |}
    /\ (forall f s, In f requiredFields -> f <> "amount" ->
                    prop (body req) f = JS.Str s -> field f d = Some (SString s))
    /\ (forall n, cast SchemaNumber (prop (body req) "amount") = Assigned (SNumber n) ->
                  field "amount" d = Some (SNumber n))
    /\ forall evs req2 env2 t,
        bearerToken (authorization req2) = Some t ->
        t ∈ adminSessions (run pw ServerJsModel v w' evs) ->
        storeUp env2 = true ->
        exists found,
          route pw ServerJsModel v GET_admin_donations req2 env2
                (run pw ServerJsModel v w' evs)
          = (Json 200 (Donations found), run pw ServerJsModel v w' evs)
          /\ In d found.
Proof.
  cbn [route].
  destruct (postDonations_cases ServerJsModel req env w) as [(_ & _ & ->) | (_ & ->)];
    [|discriminate].
  intros Heq. apply (f_equal snd) in Heq. cbn [snd] in Heq. subst w'.
  set (doc := Model_new ServerJsModel (prop (body req)) (now env)).
  exists (toObject doc). split; [reflexivity|]. split; [|split].
  - intros f s Hf Hne Hs.
    apply (string_path_keeps_string ServerJsModel (prop (body req)) (now env) f
             {| instance := SchemaString; isRequired := true; defaultValue := None |} s).
    + apply ServerJsModel_paths_distinct.
    + cbn in Hf. cbn.
      repeat (destruct Hf as [<- | Hf]; [try congruence; tauto|]). destruct Hf.
    + reflexivity.
    + exact Hs.
  - intros n Hamount.
    apply toObject_field
      with {| instance := SchemaNumber; isRequired := true; defaultValue := None |}.
    + unfold doc. rewrite Model_new_paths. apply ServerJsModel_paths_distinct.
    + unfold doc, Model_new, ServerJsModel. cbn [map instance]. rewrite Hamount.
      cbn [In]. repeat (try (left; reflexivity); right).
  - intros evs req2 env2 t Hb Hin Hup2. apply Set_has_true in Hin.
    set (w1 := {| adminSessions := adminSessions w;
                  donations := donations w ++ [toObject doc] |}) in *.
    exists (sortDesc (donations (run pw ServerJsModel v w1 evs))). split.
    + cbn [route]. unfold guarded. rewrite authenticateAdmin_bearer, Hb, Hin.
      unfold listDonations, findSorted. now rewrite Hup2.
    + apply (Permutation_in _ (Permutation_sym (sortDesc_Permutation _))).
      destruct (run_appends pw ServerJsModel v evs w1) as (added & -> & _).
      apply in_or_app. left. apply in_or_app. right. now left.
Qed.

Lemma accepted_submission_is_stored_and_listed_witness :
  exists d,
    field "cardCvc" d = Some (SString "123")
    /\ field "amount" d = Some (SNumber 10%float).
Proof.
  destruct (accepted_submission_is_stored_and_listed (H := strictCasters) None ServerJs
              (submitting scenarioFields) quiet fresh
              {| adminSessions := ∅;
                 donations := [ ("timestamp", SDate (now quiet)) :: tail (donationAt 0 "A") ] |}
              eq_refl)
    as (d & _ & Htext & Ham & _).
  exists d. split.
  - apply Htext; [cbn; tauto | discriminate | reflexivity].
  - apply Ham. reflexivity.
Defined.

(** ** Requests that are refused *)

(** X10.  A refused request never changes who is logged in: on every route,
    a request answered with a status other than [200] and [201], or with the
    file, leaves the session set as it was; and on every route but the
    submission route it leaves the collection as it was too. *)
Theorem refused_requests_change_nothing
  `{Casters} (pw : option string) (model : Schema) (v : Variant)
  (e : Endpoint) (req : Request) (env : Env) (w : World) :
  statusOf (fst (route pw model v e req env w)) <> Some 200 ->
  statusOf (fst (route pw model v e req env w)) <> Some 201 ->
  adminSessions (snd (route pw model v e req env w)) = adminSessions w
  /\ (e <> POST_donations -> snd (route pw model v e req env w) = w).
Proof.
  intros H200 H201. destruct e; cbn [route] in *.
  - rewrite getRoot_state. now split.
  - split; [apply postDonations_sessions | congruence].
  - unfold postLogin in *. destruct (negb _); [now split | now contradiction H200].
  - destruct (guarded_gate_cases logout req env w)
      as [[Hr _] | [(t' & _ & _ & Hr) | (t' & _ & _ & Hr)]];
      rewrite Hr in *; now split.
  - destruct (guarded_gate_cases listDonations req env w)
      as [[Hr _] | [(t' & _ & _ & Hr) | (t' & _ & _ & Hr)]];
      rewrite Hr in *; try (now split).
    rewrite listDonations_state. now split.
Qed.

Lemma refused_requests_change_nothing_witness :
  snd (route (H := strictCasters) (Some "secret") ServerJsModel ApiOnly POST_admin_login
             (submitting [("password", JS.Str "guess")]) quiet
             {| adminSessions := {[ "a" ]}; donations := [donationAt 1 "x"] |})
  = {| adminSessions := {[ "a" ]}; donations := [donationAt 1 "x"] |}.
Proof.
  refine (proj2 (refused_requests_change_nothing (H := strictCasters) (Some "secret")
                   ServerJsModel ApiOnly POST_admin_login
                   (submitting [("password", JS.Str "guess")]) quiet
                   {| adminSessions := {[ "a" ]}; donations := [donationAt 1 "x"] |} _ _) _);
    discriminate.
Defined.

(** ** Login *)

(** X11.  The password check does not coerce.  A [password] property that is
    there but is not a string ([null], a number, a boolean, an array, an
    object) is refused under every configuration; and when no
    [ADMIN_PASSWORD] is configured, every body that has a [password] property
    at all is refused. *)
Theorem login_does_not_coerce
  `{Casters} (pw : option string) (model : Schema) (v : Variant)
  (req : Request) (env : Env) (w : World) :
  prop (body req) "password" <> JS.Undefined ->
  (forall s, prop (body req) "password" <> JS.Str s) \/ pw = None ->
  route pw model v POST_admin_login req env w
  = (Json 401 (Message "Incorrect password"), w).
Proof.
  intros Hdef Hwhy. cbn [route]. apply postLogin_refuses.
  destruct Hwhy as [Hns | ->]; [|exact Hdef].
  destruct pw as [p|]; [apply Hns | exact Hdef].
Qed.

Lemma login_does_not_coerce_witness :
  route (H := strictCasters) None ServerJsModel ApiOnly POST_admin_login
        (submitting [("password", JS.Null)]) quiet fresh
  = (Json 401 (Message "Incorrect password"), fresh)
  /\ route (H := strictCasters) (Some "123") ServerJsModel ApiOnly POST_admin_login
        (submitting [("password", JS.Num 123%float)]) quiet fresh
  = (Json 401 (Message "Incorrect password"), fresh).
Proof.
  split.
  - apply (login_does_not_coerce (H := strictCasters)); [discriminate | now right].
  - apply (login_does_not_coerce (H := strictCasters)); [discriminate | left; discriminate].
Defined.

(** ** The two parts of the state over a run *)

Section Frames.
Context `{Casters}.
Variable pw : option string.
Variable model : Schema.
Variable v : Variant.

Lemma step_leaves_collection (w : World) (ev : Event) :
  endpoint ev <> POST_donations ->
  donations (step pw model v w ev) = donations w.
Proof.
  intros Hne. unfold step. destruct (endpoint ev); cbn [route]; try congruence.
  - now rewrite getRoot_state.
  - unfold postLogin. destruct (negb _); reflexivity.
  - destruct (guarded_gate_cases logout (request ev) (env ev) w)
      as [[-> _] | [(t' & _ & _ & ->) | (t' & _ & _ & ->)]]; reflexivity.
  - destruct (guarded_gate_cases listDonations (request ev) (env ev) w)
      as [[-> _] | [(t' & _ & _ & ->) | (t' & _ & _ & ->)]]; try reflexivity.
    now rewrite listDonations_state.
Qed.

Lemma step_leaves_sessions (w : World) (ev : Event) :
  sessionRoute (endpoint ev) = false ->
  adminSessions (step pw model v w ev) = adminSessions w.
Proof.
  intros Hs. unfold step. destruct (endpoint ev); cbn [route]; try discriminate.
  - now rewrite getRoot_state.
  - apply postDonations_sessions.
  - destruct (guarded_gate_cases listDonations (request ev) (env ev) w)
      as [[-> _] | [(t' & _ & _ & ->) | (t' & _ & _ & ->)]]; try reflexivity.
    now rewrite listDonations_state.
Qed.

Lemma step_accepted_login (w : World) (ev : Event) :
  loginAccepted pw ev = true ->
  step pw model v w ev
  = {| adminSessions := {[ uuid (env ev) ]} ∪ adminSessions w; donations := donations w |}.
Proof.
  unfold loginAccepted, step. destruct (endpoint ev); try discriminate.
  intros Hp. cbn [route]. unfold postLogin. now rewrite Hp.
Qed.

End Frames.

(** X12.  Each route writes only to its own part of the state.  A run without
    submissions leaves the collection as it was; a run without logins and
    logouts (submissions, listings, root requests) leaves the session set as
    it was. *)
Theorem runs_touch_only_their_part_of_the_state
  `{Casters} (pw : option string) (model : Schema) (v : Variant)
  (w : World) (evs : list Event) :
  (Forall (fun ev => endpoint ev <> POST_donations) evs ->
   donations (run pw model v w evs) = donations w)
  /\ (Forall (fun ev => sessionRoute (endpoint ev) = false) evs ->
      adminSessions (run pw model v w evs) = adminSessions w).
Proof.
  split; revert w; induction evs as [|ev evs IH]; intros w Hall; try reflexivity;
    inversion Hall as [|? ? Hev Hrest]; subst; cbn [run fold_left];
    unfold run in IH; rewrite (IH _ Hrest).
  - now apply step_leaves_collection.
  - now apply step_leaves_sessions.
Qed.

Lemma runs_touch_only_their_part_of_the_state_witness :
  adminSessions
    (run (H := strictCasters) None ServerJsModel ServerJs
         {| adminSessions := {[ "a" ]}; donations := [] |}
         [calling POST_donations (submitting scenarioFields);
          calling GET_admin_donations (bearing "Bearer a");
          calling GET_root anonymous])
  = {[ "a" ]}.
Proof.
  destruct (runs_touch_only_their_part_of_the_state (H := strictCasters) None ServerJsModel
              ServerJs {| adminSessions := {[ "a" ]}; donations := [] |}
              [calling POST_donations (submitting scenarioFields);
               calling GET_admin_donations (bearing "Bearer a");
               calling GET_root anonymous]) as [_ Hsessions].
  apply Hsessions. repeat constructor.
Defined.

(** X13.  Sessions add up.  After any number of successful logins in a row,
    the session set is the old one plus every token that was generated: all
    of them are valid at once, and no earlier session is displaced. *)
Theorem logins_accumulate_sessions
  `{Casters} (pw : option string) (model : Schema) (v : Variant)
  (w : World) (evs : list Event) :
  Forall (fun ev => loginAccepted pw ev = true) evs ->
  adminSessions (run pw model v w evs)
  = list_to_set (map (fun ev => uuid (env ev)) evs) ∪ adminSessions w
  /\ donations (run pw model v w evs) = donations w.
Proof.
  revert w. induction evs as [|ev evs IH]; intros w Hall.
  - cbn. split; [set_solver | reflexivity].
  - inversion Hall as [|? ? Hev Hrest]; subst. cbn [run fold_left].
    rewrite (step_accepted_login pw model v w ev Hev).
    destruct (IH {| adminSessions := {[ uuid (env ev) ]} ∪ adminSessions w;
                    donations := donations w |} Hrest) as [Hs Hd].
    unfold run in Hs, Hd. rewrite Hs, Hd. cbn. split; [set_solver | reflexivity].
Qed.

Lemma logins_accumulate_sessions_witness :
  adminSessions
    (run (H := strictCasters) (Some "secret") ServerJsModel ApiOnly
         {| adminSessions := {[ "a" ]}; donations := [] |}
         [Build_Event POST_admin_login (submitting [("password", JS.Str "secret")])
                      {| uuid := "b"; now := 0; storeUp := true |};
          Build_Event POST_admin_login (submitting [("password", JS.Str "secret")])
                      {| uuid := "c"; now := 0; storeUp := true |}])
  = list_to_set ["b"; "c"] ∪ {[ "a" ]}.
Proof.
  refine (proj1 (logins_accumulate_sessions (H := strictCasters) (Some "secret")
                   ServerJsModel ApiOnly
                   {| adminSessions := {[ "a" ]}; donations := [] |} _ _)).
  repeat constructor.
Defined.



(** ** CORS policy of the API-only file *)

Lemma includes_In (l : list string) (x : string) :
  includes l x = true <-> In x l.
Proof.
  unfold includes. rewrite existsb_exists. split.
  - intros (y & Hy & Heq). apply String.eqb_eq in Heq. now subst.
  - intros Hx. exists x. split; [exact Hx | apply String.eqb_refl].
Qed.

(** X15.  The origin check lets through a request without [Origin] (or with
    an empty one) and a request whose [Origin] is exactly one of the two
    listed; everything else is refused with ["Not allowed by CORS"].  The
    match is on the whole string: a listed origin with anything appended
    (a further domain label, a path, another port digit) is refused. *)
Theorem cors_matches_listed_origins_exactly :
  corsOrigin None = CorsAllow
  /\ (forall o, corsOrigin (Some o) = CorsAllow <-> o = "" \/ In o allowedOrigins)
  /\ (forall o, corsOrigin (Some o) <> CorsAllow ->
                corsOrigin (Some o) = CorsError "Not allowed by CORS")
  /\ (forall o suffix,
        In o allowedOrigins -> suffix <> "" ->
        corsOrigin (Some (o +:+ suffix)) = CorsError "Not allowed by CORS").
Proof.
  assert (Hchar : forall o, corsOrigin (Some o) = CorsAllow <-> o = "" \/ In o allowedOrigins).
  { intros o. unfold corsOrigin, JS.falsy.
    destruct (String.eqb o "") eqn:He; cbn [orb].
    - apply String.eqb_eq in He. tauto.
    - apply String.eqb_neq in He.
      destruct (includes allowedOrigins o) eqn:Hi.
      + apply includes_In in Hi. tauto.
      + split; [discriminate|]. intros [? | Hin]; [contradiction|].
        apply includes_In in Hin. congruence. }
  split; [reflexivity|]. split; [exact Hchar|]. split.
  - intros o Hno. unfold corsOrigin in *.
    destruct (JS.falsy (Some o) || includes allowedOrigins o); [contradiction | reflexivity].
  - intros o suffix Ho Hs.
    assert (Hno : corsOrigin (Some (o +:+ suffix)) <> CorsAllow).
    { rewrite Hchar. destruct suffix as [|c rest]; [contradiction|].
      cbn in Ho. destruct Ho as [<- | [<- | []]];
        (intros [Hempty | Hin]; [discriminate Hempty|]);
        cbn in Hin; destruct Hin as [Heq | [Heq | []]]; discriminate Heq. }
    unfold corsOrigin in *.
    destruct (JS.falsy (Some (o +:+ suffix)) || includes allowedOrigins (o +:+ suffix));
      [contradiction | reflexivity].
Qed.

Lemma cors_matches_listed_origins_exactly_witness :
  corsOrigin (Some ("https://war-kids-org.vercel.app" +:+ ".evil.example"))
  = CorsError "Not allowed by CORS".
Proof.
  destruct cors_matches_listed_origins_exactly as (_ & _ & _ & Hsuffix).
  apply Hsuffix; [left; reflexivity | discriminate].
Defined.

(** ** Edge cases of the gate and of the timestamp *)

(** X16.  A delivered header (one that does not end in a space or a tab)
    that is [Bearer ] followed by nothing but white space, such as
    [Bearer ] and a no-break space, is well formed for the gate: the token it
    extracts is the empty string, and the answer is [403], not [401],
    whenever the empty string is not a session. *)
Theorem bearer_without_token_is_forbidden
  `{Casters} (pw : option string) (model : Schema) (v : Variant) (e : Endpoint)
  (pad : string) (b : Body) (a : option string) (env : Env) (w : World) :
  e = POST_admin_logout \/ e = GET_admin_donations ->
  allWhiteSpace pad = true ->
  endsInBlank ("Bearer " +:+ pad) = false ->
  "" ∉ adminSessions w ->
  route pw model v e
        {| authorization := Some ("Bearer " +:+ pad); body := b; adminToken := a |} env w
  = (Json 403 (Message "Invalid or expired token"), w).
Proof.
  intros He Hp _ Hnot. apply Set_has_false in Hnot.
  assert (Ht : JS.trim pad = "").
  { unfold JS.trim. now rewrite (trimStart_all_white pad Hp). }
  destruct He as [-> | ->]; cbn [route]; unfold guarded;
    rewrite authenticateAdmin_bearer; cbn [authorization];
    rewrite bearerToken_of_header, Ht, Hnot; reflexivity.
Qed.

Lemma bearer_without_token_is_forbidden_witness :
  route (H := strictCasters) None ServerJsModel ApiOnly GET_admin_donations
        (bearing ("Bearer " +:+ nbsp)) quiet
        {| adminSessions := {[ "a" ]}; donations := [] |}
  = (Json 403 (Message "Invalid or expired token"),
     {| adminSessions := {[ "a" ]}; donations := [] |}).
Proof.
  apply (bearer_without_token_is_forbidden (H := strictCasters) None ServerJsModel ApiOnly
           GET_admin_donations nbsp (BodyObject []) None quiet
           {| adminSessions := {[ "a" ]}; donations := [] |});
    [right; reflexivity | reflexivity | reflexivity | cbn; set_solver].
Defined.

(** X17.  The timestamp of a stored donation is the client's when the client
    sends one.  Under the schema of [server.js], for every accepted
    submission: without a [timestamp] the document gets [Date.now()] of the
    request; with [timestamp: null] it is stored with a [null] timestamp (the
    default fills only what is [undefined]); with a value the date caster
    accepts, that date is stored, whatever the time of the request. *)
Theorem stored_timestamp_follows_submission
  `{Casters} (pw : option string) (v : Variant)
  (req : Request) (env : Env) (w w' : World) :
  route pw ServerJsModel v POST_donations req env w
  = (Json 201 (Message "Donation received"), w') ->
  exists d,
    donations w' = donations w ++ [d]
    /\ (prop (body req) "timestamp" = JS.Undefined ->
        field "timestamp" d = Some (SDate (now env)))
    /\ (prop (body req) "timestamp" = JS.Null ->
        field "timestamp" d = Some SNull)
    /\ (forall ms,
          cast SchemaDate (prop (body req) "timestamp") = Assigned (SDate ms) ->
          field "timestamp" d = Some (SDate ms)).
Proof.
  cbn [route].
  destruct (postDonations_cases ServerJsModel req env w) as [(_ & _ & ->) | (_ & ->)];
    [|discriminate].
  intros [= <-]. cbn [donations].
  set (doc := Model_new ServerJsModel (prop (body req)) (now env)).
  exists (toObject doc). split; [reflexivity|].
  assert (Hfield : forall x,
             applyDefault (now env)
               {| instance := SchemaDate; isRequired := false; defaultValue := Some DateNow |}
               (cast SchemaDate (prop (body req) "timestamp")) = Assigned x ->
             field "timestamp" (toObject doc) = Some x).
  { intros x Hx.
    apply toObject_field
      with {| instance := SchemaDate; isRequired := false; defaultValue := Some DateNow |}.
    - unfold doc. rewrite Model_new_paths. apply ServerJsModel_paths_distinct.
    - unfold doc, Model_new, ServerJsModel. cbn [map instance]. rewrite Hx. now left. }
  repeat split.
  - intros Hts. apply Hfield. now rewrite Hts.
  - intros Hts. apply Hfield. now rewrite Hts.
  - intros ms Hts. apply Hfield. now rewrite Hts.
Qed.

Lemma stored_timestamp_follows_submission_witness :
  exists d,
    [d] = [] ++ [d]
    /\ field "timestamp" d = Some SNull.
Proof.
  destruct (stored_timestamp_follows_submission (H := strictCasters) None ServerJs
              (submitting (("timestamp", JS.Null) :: scenarioFields)) quiet fresh
              {| adminSessions := ∅;
                 donations := [ ("timestamp", SNull) :: tail (donationAt 0 "A") ] |}
              eq_refl)
    as (d & Hd & _ & Hnull & _).
  exists d. split; [reflexivity | now apply Hnull].
Defined.
